(** * Overlapped tiling of a CZI volume into a Zarr store

    A shallow embedding of [dask-new-overlap.py]: the coordinate tuples, the
    range containment check, the tile loader, the tile plan builder, the
    overlap trimmer, the chunk writer, the resumability filter and the
    start-up checks of the driver, followed by the properties that the
    design document states about them.

    Python integers are unbounded, so they are [Z].  A Python [range] is a
    record of its three fields; a [set] of coordinate tuples is a [gset];
    an exception is a value of [exn] carried by the [result] monad. *)

From Stdlib Require Import ZArith Lia Ascii String.
From stdpp Require Import base tactics option list numbers strings gmap sets.

Local Open Scope Z_scope.

(** ** Exceptions *)

Inductive exn : Type :=
  | ValueError (msg : string)
  | TypeError
  | ZeroDivisionError
  | IndexError.

Inductive result (A : Type) : Type :=
  | Ok (a : A)
  | Raise (e : exn).
Arguments Ok {A} a.
Arguments Raise {A} e.

#[export] Instance result_ret : MRet result := λ A a, Ok a.
#[export] Instance result_bind : MBind result := λ A B f m,
  match m with
  | Ok a => f a
  | Raise e => Raise e
  end.
#[export] Instance result_fmap : FMap result := λ A B f m,
  match m with
  | Ok a => Ok (f a)
  | Raise e => Raise e
  end.

Definition is_Ok {A} (m : result A) : bool :=
  match m with Ok _ => true | Raise _ => false end.

(** ** Coordinate tuples: [TZYX] and [TCZYX] *)

Record TZYX : Type := mkTZYX { T4 : Z; Z4 : Z; Y4 : Z; X4 : Z }.
Record TCZYX : Type := mkTCZYX { T5 : Z; C5 : Z; Z5 : Z; Y5 : Z; X5 : Z }.

(** The [TZYX] property of [TCZYX]: the channel axis is dropped. *)
Definition TCZYX_TZYX (v : TCZYX) : TZYX :=
  mkTZYX (T5 v) (Z5 v) (Y5 v) (X5 v).

(** A named tuple iterates and indexes like the tuple of its fields. *)
Definition TZYX_items (v : TZYX) : list Z := [T4 v; Z4 v; Y4 v; X4 v].

Definition TZYX_tuple (v : TZYX) : Z * Z * Z * Z := (T4 v, Z4 v, Y4 v, X4 v).
Definition TZYX_of_tuple (p : Z * Z * Z * Z) : TZYX :=
  let '(t, z, y, x) := p in mkTZYX t z y x.

#[export] Instance TZYX_eq_dec : EqDecision TZYX.
Proof. solve_decision. Defined.
#[export] Instance TZYX_countable : Countable TZYX.
Proof.
  apply (inj_countable' TZYX_tuple TZYX_of_tuple).
  by intros [].
Defined.

(** ** Python ranges *)

Record range : Type := mk_range { start : Z; stop : Z; step : Z }.

(** [range(a, b)] *)
Definition py_range (a b : Z) : range := mk_range a b 1.

(** [range(a, b, c)] raises [ValueError] when the step is zero. *)
Definition py_range3 (a b c : Z) : result range :=
  if decide (c = 0) then Raise (ValueError "range() arg 3 must not be zero")
  else Ok (mk_range a b c).

(** [len(r)] *)
Definition range_len (r : range) : Z :=
  if decide (0 < step r ∧ start r < stop r) then
    1 + (stop r - 1 - start r) `div` step r
  else if decide (step r < 0 ∧ stop r < start r) then
    1 + (start r - 1 - stop r) `div` (- step r)
  else 0.

(** [x in r] for an integer [x] *)
Definition range_in (x : Z) (r : range) : bool :=
  if decide (0 < step r) then
    bool_decide (start r ≤ x < stop r) && bool_decide ((x - start r) `mod` step r = 0)
  else
    bool_decide (stop r < x ≤ start r) && bool_decide ((start r - x) `mod` (- step r) = 0).

(** [r[i]]: a negative index counts from the end; outside the range it
    raises [IndexError]. *)
Definition range_getitem (r : range) (i : Z) : result Z :=
  let n := range_len r in
  let i' := if decide (i < 0) then i + n else i in
  if decide (0 ≤ i' < n) then Ok (start r + i' * step r)
  else Raise IndexError.

(** The values a [for] loop over [r] visits, in order. *)
Definition range_elems (r : range) : list Z :=
  (λ k, start r + k * step r) <$> seqZ 0 (range_len r).

(** ** Range containment check *)

(** [range_contains(r_inner, r_outer)].  [r_inner[-1]] is only evaluated
    when [r_inner] has at least two elements, where it cannot raise. *)
Definition range_contains (r_inner r_outer : range) : bool :=
  if decide (range_len r_inner = 0) then true
  else if negb (range_in (start r_inner) r_outer) then false
  else if decide (range_len r_inner = 1) then true
  else
    match range_getitem r_inner (-1) with
    | Raise _ => false
    | Ok last_inner =>
        if negb (range_in last_inner r_outer) then false
        else if decide (range_len r_inner = 2) then true
        else bool_decide (step r_inner `mod` step r_outer = 0)
    end.

(** ** The CZI source file, as far as the program consults it *)

(** A bounding rectangle, [(x, y, w, h)]. *)
Record Rectangle : Type := mkRectangle { rect_x : Z; rect_y : Z; rect_w : Z; rect_h : Z }.

(** The entries of [total_bounding_box] that are read: [(first, end)] per
    dimension. *)
Record BoundingBox : Type := mkBoundingBox {
  bbox_T : Z * Z;
  bbox_Z : Z * Z;
  bbox_C : Z * Z }.

(** An opened CZI file.  [read t z scene roi] is the external reader: the
    plane it returns is looked up as [plane row col channel]. *)
Record czi_file : Type := mk_czi_file {
  total_bounding_box : BoundingBox;
  scenes_bounding_rectangle : gmap Z Rectangle;
  total_bounding_rectangle : Rectangle;
  read : Z → Z → Z → Rectangle → Z → Z → Z → Z }.

(** [scenes_bounding_rectangle.get(scene, None)], falling back on the total
    bounding rectangle. *)
Definition bound_rect (input_file : czi_file) (scene : Z) : Rectangle :=
  match scenes_bounding_rectangle input_file !! scene with
  | Some r => r
  | None => total_bounding_rectangle input_file
  end.

Definition extent (b : Z * Z) : Z := b.2 - b.1.

(** ** Arrays *)

(** An [ndarray] in TCZYX order: its shape and its items. *)
Record ndarray : Type := mk_ndarray {
  shape : TCZYX;
  item : Z → Z → Z → Z → Z → Z }.

(** [slice(lo, hi)] where [hi] may be [None]. *)
Record slice : Type := mk_slice { slice_start : Z; slice_stop : option Z }.

(** [slice.indices(n)] with the default step: a negative bound counts from
    the end, and both bounds are clipped to [0, n]. *)
Definition clip_index (i n : Z) : Z :=
  if decide (i < 0) then Z.max (i + n) 0 else Z.min i n.

Definition slice_bounds (s : slice) (n : Z) : Z * Z :=
  (clip_index (slice_start s) n,
   match slice_stop s with
   | None => n
   | Some j => clip_index j n
   end).

Definition slice_len (s : slice) (n : Z) : Z :=
  Z.max 0 ((slice_bounds s n).2 - (slice_bounds s n).1).

(** [a[*axes]] for a list of slices: missing trailing axes are taken whole,
    more than five raise [IndexError]. *)
Definition ndarray_getitem (a : ndarray) (axes : list slice) : result ndarray :=
  match axes ++ replicate (5 - length axes)%nat (mk_slice 0 None) with
  | [sT; sC; sZ; sY; sX] =>
      let sh := shape a in
      Ok {| shape := mkTCZYX (slice_len sT (T5 sh)) (slice_len sC (C5 sh))
                             (slice_len sZ (Z5 sh)) (slice_len sY (Y5 sh))
                             (slice_len sX (X5 sh));
            item := λ t c z y x,
              item a ((slice_bounds sT (T5 sh)).1 + t) ((slice_bounds sC (C5 sh)).1 + c)
                     ((slice_bounds sZ (Z5 sh)).1 + z) ((slice_bounds sY (Y5 sh)).1 + y)
                     ((slice_bounds sX (X5 sh)).1 + x) |}
  | _ => Raise IndexError
  end.

(** ** Tile loader *)

(** One call of the external reader. *)
Record read_call : Type := mk_read_call {
  call_T : Z; call_Z : Z; call_scene : Z; call_roi : Rectangle }.

(** [load_chunk]: the reads it issues, in order, and what it returns. *)
Definition load_chunk (input_file : czi_file)
    (t_range z_range y_range x_range : range) (scene : Z)
    : list read_call * result ndarray :=
  let C := extent (bbox_C (total_bounding_box input_file)) in
  let bound_rect := bound_rect input_file scene in
  let X := py_range (rect_x bound_rect) (rect_x bound_rect + rect_w bound_rect) in
  let Y := py_range (rect_y bound_rect) (rect_y bound_rect + rect_h bound_rect) in
  if negb (range_contains y_range Y) || negb (range_contains x_range X) then
    ([], Raise (ValueError "input range lies outside image"))
  else
    let roi := mkRectangle (start x_range) (start y_range)
                           (range_len x_range) (range_len y_range) in
    (t ← range_elems t_range; z ← range_elems z_range; [mk_read_call t z scene roi],
     Ok {| shape := mkTCZYX (range_len t_range) C (range_len z_range)
                            (range_len y_range) (range_len x_range);
           item := λ ndarray_t c ndarray_z y x,
             read input_file (start t_range + ndarray_t * step t_range)
                  (start z_range + ndarray_z * step z_range) scene roi y x c |}).

(** [get_czi_scene_shape] *)
Definition get_czi_scene_shape (input_file : czi_file) (scene : Z) : TCZYX :=
  let bbox := total_bounding_box input_file in
  let bound_rect := bound_rect input_file scene in
  mkTCZYX (extent (bbox_T bbox)) (extent (bbox_C bbox)) (extent (bbox_Z bbox))
          (rect_h bound_rect) (rect_w bound_rect).

(** ** Resumability filter *)

(** [itertools.product] of four ranges, rightmost axis fastest. *)
Definition product4 (rT rZ rY rX : range) : list TZYX :=
  t ← range_elems rT; z ← range_elems rZ; y ← range_elems rY; x ← range_elems rX;
  [mkTZYX t z y x].

(** [check_existing_chunks] *)
Definition check_existing_chunks (da_chunk chunk_ratios : TZYX)
    (existing_chunks : gset TZYX) : bool :=
  let rng da_ch ch_r := py_range (da_ch * ch_r) ((da_ch + 1) * ch_r) in
  forallb (λ t, bool_decide (t ∈ existing_chunks))
    (product4 (rng (T4 da_chunk) (T4 chunk_ratios)) (rng (Z4 da_chunk) (Z4 chunk_ratios))
              (rng (Y4 da_chunk) (Y4 chunk_ratios)) (rng (X4 da_chunk) (X4 chunk_ratios))).

(** ** Tile plan builder *)

(** The arguments of one delayed [load_chunk] call. *)
Record load_args : Type := mk_load_args {
  t_range : range; z_range : range; y_range : range; x_range : range;
  load_scene : Z }.

(** [enumerate] over the values of a range: the loop counter with the loop
    variable. *)
Definition enumerate_range (r : range) : list (Z * Z) :=
  zip (seqZ 0 (range_len r)) (range_elems r).

(** [load_chunks_from_czi]: the dictionary it returns, as the list of its
    items in insertion order. *)
Definition load_chunks_from_czi (input_file : czi_file) (chunk_sizes overlap : TZYX)
    (existing_chunks : gset TZYX) (chunk_ratios : TZYX) (scene : Z)
    : result (list (TZYX * load_args)) :=
  let bbox := total_bounding_box input_file in
  let T := extent (bbox_T bbox) in
  let Z' := extent (bbox_Z bbox) in
  let bound_rect := bound_rect input_file scene in
  let X_min := rect_x bound_rect in
  let width := rect_w bound_rect in
  let Y_min := rect_y bound_rect in
  let height := rect_h bound_rect in
  ts ← py_range3 0 T (T4 chunk_sizes);
  mjoin <$> mapM (λ '(t_ind, t),
    zs ← py_range3 0 Z' (Z4 chunk_sizes);
    mjoin <$> mapM (λ '(z_ind, z),
      ys ← py_range3 Y_min (Y_min + height) (Y4 chunk_sizes);
      mjoin <$> mapM (λ '(y_ind, y),
        xs ← py_range3 X_min (X_min + width) (X4 chunk_sizes);
        mjoin <$> mapM (λ '(x_ind, x),
          let t_range := py_range (Z.max (t - T4 overlap) 0)
                                  (Z.min T (t + T4 chunk_sizes + T4 overlap)) in
          let z_range := py_range (Z.max (z - Z4 overlap) 0)
                                  (Z.min Z' (z + Z4 chunk_sizes + Z4 overlap)) in
          let y_range := py_range (Z.max (y - Y4 overlap) Y_min)
                                  (Z.min (Y_min + height) (y + Y4 chunk_sizes + Y4 overlap)) in
          let x_range := py_range (Z.max (x - X4 overlap) X_min)
                                  (Z.min (X_min + width) (x + X4 chunk_sizes + X4 overlap)) in
          let ind := mkTZYX t_ind z_ind y_ind x_ind in
          if negb (check_existing_chunks ind chunk_ratios existing_chunks) then
            Ok [(ind, mk_load_args t_range z_range y_range x_range scene)]
          else Ok [])
          (enumerate_range xs))
        (enumerate_range ys))
      (enumerate_range zs))
    (enumerate_range ts).

(** [math.ceil(f / c)].  The quotient is a float in the source; it is exact,
    and so is this integer form, for extents below 2^53. *)
Definition ceil_div (f c : Z) : result Z :=
  if decide (c = 0) then Raise ZeroDivisionError else Ok (- ((- f) `div` c)).

(** [get_chunk_dims] *)
Definition get_chunk_dims (file_values : TCZYX) (chunk_sizes : TZYX) : result TZYX :=
  ch_shape ← mapM (λ '(f, c), ceil_div f c)
                  (zip (TZYX_items (TCZYX_TZYX file_values)) (TZYX_items chunk_sizes));
  match ch_shape with
  | [t; z; y; x] => Ok (mkTZYX t z y x)
  | _ => Raise TypeError
  end.

(** ** Overlap trimmer *)

(** [v[i]] on a [TZYX]; the loop of [trim] only uses [i < 4]. *)
Definition TZYX_get (v : TZYX) (i : nat) : Z := default 0 (TZYX_items v !! i).

(** [l.insert(1, x)] *)
Definition insert_at_1 {A} (x : A) (l : list A) : list A := take 1 l ++ x :: drop 1 l.

(** The slices [trim] builds: one per tiled axis, then the channel axis
    inserted at position 1. *)
Definition trim_axes (ch_index chunk_array overlaps : TZYX) : list slice :=
  let axes := imap (λ i c_i,
      let lo := if decide (c_i > 0) then TZYX_get overlaps i else 0 in
      let hi := if decide (TZYX_get overlaps i > 0 ∧ c_i < TZYX_get chunk_array i - 1)
                then Some (- TZYX_get overlaps i) else None in
      mk_slice lo hi) (TZYX_items ch_index) in
  insert_at_1 (mk_slice 0 None) axes.

(** [trim] *)
Definition trim (block : ndarray) (ch_index chunk_array overlaps : TZYX) : result ndarray :=
  ndarray_getitem block (trim_axes ch_index chunk_array overlaps).

(** ** Chunk writer *)

(** The region [save_block_to_zarr] assigns to: one absolute slice per tiled
    axis, the channel axis whole. *)
Definition save_section (block : ndarray) (chunk_index chunk_sizes : TZYX) : list slice :=
  let section := (λ t : Z * Z * Z, let '(i, c, n) := t in mk_slice (i * c) (Some (i * c + n)))
    <$> zip (zip (TZYX_items chunk_index) (TZYX_items chunk_sizes))
            (TZYX_items (TCZYX_TZYX (shape block))) in
  insert_at_1 (mk_slice 0 None) section.

(** [save_block_to_zarr]: the write it performs on the output array, as the
    region together with the block assigned to it. *)
Definition save_block_to_zarr (block : ndarray) (chunk_index chunk_sizes : TZYX)
    : list slice * ndarray :=
  (save_section block chunk_index chunk_sizes, block).

(** Whether a region of an output array of shape [sh] holds the coordinate
    [p]: every slice is resolved against its axis as an assignment does. *)
Definition section_covers (sh : TCZYX) (section : list slice) (p : TCZYX) : bool :=
  match section with
  | [sT; sC; sZ; sY; sX] =>
      let inside (s : slice) (n i : Z) :=
        bool_decide ((slice_bounds s n).1 ≤ i < (slice_bounds s n).2) in
      inside sT (T5 sh) (T5 p) && inside sC (C5 sh) (C5 p) && inside sZ (Z5 sh) (Z5 p)
      && inside sY (Y5 sh) (Y5 p) && inside sX (X5 sh) (X5 p)
  | _ => false
  end.

(** ** One tile's pipeline: load, denoise, trim, save *)

(** [denoise] stands for [ndsafir.denoise] with the settings of
    [process_block]. *)
Definition run_tile (denoise : ndarray → ndarray) (input_file : czi_file)
    (chunk_array overlaps chunk_sizes : TZYX) (b_ind : TZYX) (a : load_args)
    : result (list slice * ndarray) :=
  block ← (load_chunk input_file (t_range a) (z_range a) (y_range a) (x_range a)
                      (load_scene a)).2;
  let denoised := denoise block in
  trimmed ← trim denoised b_ind chunk_array overlaps;
  Ok (save_block_to_zarr trimmed b_ind chunk_sizes).

(** ** Driver *)

(** [a % b] and [a // b] on integers. *)
Definition py_mod (a b : Z) : result Z :=
  if decide (b = 0) then Raise ZeroDivisionError else Ok (a `mod` b).
Definition py_floordiv (a b : Z) : result Z :=
  if decide (b = 0) then Raise ZeroDivisionError else Ok (a `div` b).

(** The output array: its shape, its chunk shape and the keys of its store. *)
Record zarr_array : Type := mk_zarr_array {
  zarr_shape : TCZYX;
  zarr_chunks : TCZYX;
  zarr_keys : list string }.

(** [zarr.open_array(..., mode="r")], creating the array when it is not
    found. *)
Definition open_or_create (found : option zarr_array) (file_array output_chunks : TCZYX)
    : zarr_array :=
  match found with
  | Some output_zarr => output_zarr
  | None => mk_zarr_array file_array output_chunks [".zarray"]
  end.

(** The start-up check of the chunk sizes. *)
Definition check_chunk_sizes (output_zarr_chunks : TCZYX) (chunk_sizes : TZYX) : result unit :=
  _ ← mapM (λ '(f_ch, d_ch),
      if decide (f_ch > d_ch) then
        Raise (ValueError "Dask chunks smaller than output chunks")
      else
        r ← py_mod d_ch f_ch;
        if decide (r ≠ 0) then
          Raise (ValueError "Dask chunks not multiples of output chunks")
        else Ok ())
    (zip (TZYX_items (TCZYX_TZYX output_zarr_chunks)) (TZYX_items chunk_sizes));
  Ok ().

(** [k.split('.')] *)
Fixpoint split_on (sep : ascii) (s : string) : list string :=
  match s with
  | EmptyString => [EmptyString]
  | String c s' =>
      if decide (c = sep) then EmptyString :: split_on sep s'
      else match split_on sep s' with
           | p :: ps => String c p :: ps
           | [] => [String c EmptyString]
           end
  end.

(** The [TCZYX] made from [map(int, k.split('.'))]: every part is converted
    first, then the constructor wants exactly five of them.  [int] is the
    built-in. *)
Definition parse_key (int : string → result Z) (k : string) : result TCZYX :=
  parts ← mapM int (split_on "."%char k);
  match parts with
  | [t; c; z; y; x] => Ok (mkTCZYX t c z y x)
  | _ => Raise TypeError
  end.

(** The set of existing chunks. *)
Definition existing_chunks_of (int : string → result Z) (keys : list string)
    : result (gset TZYX) :=
  list_to_set <$> mapM (λ k, TCZYX_TZYX <$> parse_key int k)
                       (filter (λ k, k ≠ ".zarray") keys).

(** The ratios of dask to file chunks. *)
Definition chunk_ratios_of (chunk_sizes : TZYX) (output_chunks : TCZYX) : result TZYX :=
  rs ← mapM (λ '(d_c, f_c), py_floordiv d_c f_c)
            (zip (TZYX_items chunk_sizes) (TZYX_items (TCZYX_TZYX output_chunks)));
  match rs with
  | [t; z; y; x] => Ok (mkTZYX t z y x)
  | _ => Raise TypeError
  end.

(** The parameter block of the driver. *)
Record parameters : Type := mk_parameters {
  scene : Z;
  chunk_sizes : TZYX;
  overlaps : TZYX;
  output_chunks : TCZYX }.

(** What the driver hands to [dask.compute]: the grid dimensions and, per
    scheduled tile, the arguments of its load. *)
Record task_graph : Type := mk_task_graph {
  chunk_array : TZYX;
  data_array : list (TZYX * load_args) }.

(** The driver up to the construction of the task graph.
    [load_chunks_from_czi] is called without a scene and so with scene 0. *)
Definition driver (int : string → result Z) (input_file : czi_file) (p : parameters)
    (found : option zarr_array) : result task_graph :=
  let file_array := get_czi_scene_shape input_file (scene p) in
  chunk_array ← get_chunk_dims file_array (chunk_sizes p);
  let output_zarr := open_or_create found file_array (output_chunks p) in
  _ ← check_chunk_sizes (zarr_chunks output_zarr) (chunk_sizes p);
  existing_chunks ← existing_chunks_of int (zarr_keys output_zarr);
  chunk_ratios ← chunk_ratios_of (chunk_sizes p) (output_chunks p);
  data_array ← load_chunks_from_czi input_file (chunk_sizes p) (overlaps p)
                                    existing_chunks chunk_ratios 0;
  Ok (mk_task_graph chunk_array data_array).

(** The writes of a task graph, tile by tile. *)
Definition compute (denoise : ndarray → ndarray) (input_file : czi_file) (p : parameters)
    (g : task_graph) : result (list (list slice * ndarray)) :=
  mapM (λ '(b_ind, a),
      run_tile denoise input_file (chunk_array g) (overlaps p) (chunk_sizes p) b_ind a)
    (data_array g).

(** [int] on the plain decimal numerals that chunk keys are made of. *)
Definition digit_value (c : ascii) : option Z :=
  let n := Z.of_N (N_of_ascii c) in
  if decide (48 ≤ n ≤ 57) then Some (n - 48) else None.

Fixpoint digits_value (acc : Z) (s : string) : option Z :=
  match s with
  | EmptyString => Some acc
  | String c s' => d ← digit_value c; digits_value (10 * acc + d) s'
  end.

Definition int_decimal (s : string) : result Z :=
  match s with
  | EmptyString => Raise (ValueError "invalid literal for int()")
  | _ => match digits_value 0 s with
         | Some v => Ok v
         | None => Raise (ValueError "invalid literal for int()")
         end
  end.

(** * What the properties are stated with *)

(** A range has a step other than zero. *)
Definition range_wf (r : range) : Prop := step r ≠ 0.

(** The storage coordinates a tile occupies: per axis, the chunk indices
    from [tile_index * ratio] up to, not including, [(tile_index + 1) * ratio]. *)
Definition storage_footprint (da_chunk chunk_ratios p : TZYX) : Prop :=
  T4 da_chunk * T4 chunk_ratios ≤ T4 p < (T4 da_chunk + 1) * T4 chunk_ratios
  ∧ Z4 da_chunk * Z4 chunk_ratios ≤ Z4 p < (Z4 da_chunk + 1) * Z4 chunk_ratios
  ∧ Y4 da_chunk * Y4 chunk_ratios ≤ Y4 p < (Y4 da_chunk + 1) * Y4 chunk_ratios
  ∧ X4 da_chunk * X4 chunk_ratios ≤ X4 p < (X4 da_chunk + 1) * X4 chunk_ratios.

(** The read window the design prescribes for the tile at grid index [idx]
    of an axis that starts at [axis_min]: the tile starts at
    [axis_min + idx * tile_size], is widened by the overlap on both sides
    and clamped to the axis. *)
Definition axis_window (axis_min axis_extent tile_size overlap idx : Z) : range :=
  let axis_start := axis_min + idx * tile_size in
  py_range (Z.max (axis_start - overlap) axis_min)
           (Z.min (axis_min + axis_extent) (axis_start + tile_size + overlap)).

(** Every value of the window [w] is a valid coordinate of the axis. *)
Definition window_within (w : range) (axis_min axis_extent : Z) : Prop :=
  ∀ v, v ∈ range_elems w → axis_min ≤ v < axis_min + axis_extent.

Definition valid_Z (input_file : czi_file) : range :=
  py_range 0 (extent (bbox_Z (total_bounding_box input_file))).

(** The valid rows and columns of a scene of a file. *)
Definition valid_Y (input_file : czi_file) (scene : Z) : range :=
  let R := bound_rect input_file scene in py_range (rect_y R) (rect_y R + rect_h R).
Definition valid_X (input_file : czi_file) (scene : Z) : range :=
  let R := bound_rect input_file scene in py_range (rect_x R) (rect_x R + rect_w R).

(** The slice the design prescribes for trimming one tiled axis. *)
Definition trim_slice (tile_index grid_dim overlap : Z) : slice :=
  mk_slice (if decide (tile_index > 0) then overlap else 0)
           (if decide (overlap > 0 ∧ tile_index < grid_dim - 1) then Some (- overlap)
            else None).

(** Array shapes have no negative extent. *)
Definition shape_wf (sh : TCZYX) : Prop :=
  0 ≤ T5 sh ∧ 0 ≤ C5 sh ∧ 0 ≤ Z5 sh ∧ 0 ≤ Y5 sh ∧ 0 ≤ X5 sh.

(** The file of the end-to-end scenario: extent T=4, C=2, Z=1, Y=8, X=8,
    read through [rd]. *)
Definition scenario_file (rd : Z → Z → Z → Rectangle → Z → Z → Z → Z) : czi_file :=
  mk_czi_file (mkBoundingBox (0, 4) (0, 1) (0, 2)) ∅ (mkRectangle 0 0 8 8) rd.
Definition scenario_tile : TZYX := mkTZYX 2 1 4 4.
Definition scenario_overlap : TZYX := mkTZYX 1 0 1 1.

(** A reader of a blank image. *)
Definition blank : Z → Z → Z → Rectangle → Z → Z → Z → Z := λ _ _ _ _ _ _ _, 0.

(** A store chunk size fits a tile size when it is not larger and divides
    it. *)
Definition chunk_fits (f_ch d_ch : Z) : Prop := f_ch ≤ d_ch ∧ (f_ch | d_ch).

Definition chunks_fit (output_zarr_chunks : TCZYX) (chunk_sizes : TZYX) : Prop :=
  chunk_fits (T5 output_zarr_chunks) (T4 chunk_sizes)
  ∧ chunk_fits (Z5 output_zarr_chunks) (Z4 chunk_sizes)
  ∧ chunk_fits (Y5 output_zarr_chunks) (Y4 chunk_sizes)
  ∧ chunk_fits (X5 output_zarr_chunks) (X4 chunk_sizes).

(** The chunk keys of a store that name the storage coordinate [p] for
    some channel. *)
Definition key_for (int : string → result Z) (keys : list string) (p : TZYX) : Prop :=
  ∃ k c, k ∈ keys ∧ k ≠ ".zarray" ∧ parse_key int k = Ok c ∧ TCZYX_TZYX c = p.

(** A file whose rows do not divide into tiles evenly: 9 rows of 4 columns,
    one time point, one plane, one channel; tiled by 4 rows with an overlap
    of 2 rows. *)
Definition gap_file : czi_file :=
  mk_czi_file (mkBoundingBox (0, 1) (0, 1) (0, 1)) ∅ (mkRectangle 0 0 4 9) blank.
Definition gap_parameters : parameters :=
  mk_parameters 0 (mkTZYX 1 1 4 4) (mkTZYX 0 0 2 0) (mkTCZYX 1 1 1 4 4).

(** The rows (or columns, ...) of the output that belong to the tile at
    grid index [idx] of an axis of extent [axis_extent]: a whole tile, or
    what is left of the axis. *)
Definition nominal_slice (axis_extent tile_size idx : Z) : slice :=
  mk_slice (idx * tile_size)
           (Some (idx * tile_size + Z.min tile_size (axis_extent - idx * tile_size))).

(** The overlap is no larger than the last tile of an axis that has at
    least two tiles. *)
Definition overlap_fits (axis_extent tile_size overlap grid_dim : Z) : Prop :=
  2 ≤ grid_dim → overlap ≤ axis_extent - (grid_dim - 1) * tile_size.

(** * Properties *)

(** ** Ranges *)


Lemma range_len_nonneg r : 0 ≤ range_len r.
Proof.
  unfold range_len. repeat case_decide; try lia.
  - assert (0 ≤ (stop r - 1 - start r) `div` step r) by (apply Z.div_pos; lia). lia.
  - assert (0 ≤ (start r - 1 - stop r) `div` (- step r)) by (apply Z.div_pos; lia). lia.
Qed.

(** For a positive step, [k] indexes an element exactly when the element
    is below [stop]. *)
Lemma range_len_up r k :
  0 < step r → 0 ≤ k → (k < range_len r ↔ start r + k * step r < stop r).
Proof.
  intros Hs Hk. unfold range_len.
  destruct (decide (0 < step r ∧ start r < stop r)) as [[_ Hlt]|Hn].
  - pose proof (Z.div_mod (stop r - 1 - start r) (step r) ltac:(lia)) as Hdm.
    pose proof (Z.mod_pos_bound (stop r - 1 - start r) (step r) Hs) as Hb.
    split; intros; nia.
  - rewrite decide_False by lia. split; intros; nia.
Qed.

Lemma range_len_down r k :
  step r < 0 → 0 ≤ k → (k < range_len r ↔ stop r < start r + k * step r).
Proof.
  intros Hs Hk. unfold range_len.
  rewrite decide_False by lia.
  destruct (decide (step r < 0 ∧ stop r < start r)) as [[_ Hlt]|Hn].
  - pose proof (Z.div_mod (start r - 1 - stop r) (- step r) ltac:(lia)) as Hdm.
    pose proof (Z.mod_pos_bound (start r - 1 - stop r) (- step r) ltac:(lia)) as Hb.
    split; intros; nia.
  - split; intros; nia.
Qed.

Lemma length_range_elems r : length (range_elems r) = Z.to_nat (range_len r).
Proof. unfold range_elems. by rewrite length_fmap, length_seqZ. Qed.

Lemma elem_of_range_elems_index r x :
  x ∈ range_elems r ↔ ∃ k, 0 ≤ k < range_len r ∧ x = start r + k * step r.
Proof.
  unfold range_elems. rewrite list_elem_of_fmap. split.
  - intros (k & -> & Hk). apply elem_of_seqZ in Hk. exists k. split; [lia|done].
  - intros (k & Hk & ->). exists k. split; [done|]. apply elem_of_seqZ. lia.
Qed.

(** [x in r] is membership among the values the range iterates over. *)
Lemma range_in_elems r x :
  range_wf r → range_in x r = true ↔ x ∈ range_elems r.
Proof.
  intros Hwf. unfold range_wf in Hwf.
  rewrite elem_of_range_elems_index. unfold range_in.
  destruct (decide (0 < step r)) as [Hs|Hs].
  - rewrite andb_true_iff, !bool_decide_eq_true. split.
    + intros [Hb Hm].
      exists ((x - start r) `div` step r).
      pose proof (Z.div_mod (x - start r) (step r) ltac:(lia)) as Hdm.
      assert (0 ≤ (x - start r) `div` step r) by (apply Z.div_pos; lia).
      rewrite Hm in Hdm.
      split; [split; [done|]|lia].
      apply range_len_up; [done..|lia].
    + intros (k & [Hk0 Hk] & ->).
      apply range_len_up in Hk; [|done..].
      split; [nia|].
      replace (start r + k * step r - start r) with (k * step r) by lia.
      by apply Z.mod_mul.
  - assert (step r < 0) as Hneg by lia.
    rewrite andb_true_iff, !bool_decide_eq_true. split.
    + intros [Hb Hm].
      exists ((start r - x) `div` (- step r)).
      pose proof (Z.div_mod (start r - x) (- step r) ltac:(lia)) as Hdm.
      assert (0 ≤ (start r - x) `div` (- step r)) by (apply Z.div_pos; lia).
      rewrite Hm in Hdm.
      split; [split; [done|]|lia].
      apply range_len_down; [done..|lia].
    + intros (k & [Hk0 Hk] & ->).
      apply range_len_down in Hk; [|done..].
      split; [nia|].
      replace (start r - (start r + k * step r)) with (k * - step r) by lia.
      apply Z.mod_mul. lia.
Qed.

(** [r[-1]] is the last value of a non-empty range. *)
Lemma range_getitem_last r :
  0 < range_len r →
  range_getitem r (-1) = Ok (start r + (range_len r - 1) * step r).
Proof.
  intros Hn. unfold range_getitem. cbn zeta.
  destruct (decide (-1 < 0)) as [_|?]; [|lia].
  rewrite decide_True by lia. do 3 f_equal. lia.
Qed.

Lemma last_range_elems r :
  0 < range_len r →
  last (range_elems r) = Some (start r + (range_len r - 1) * step r).
Proof.
  intros Hn. rewrite last_lookup, length_range_elems.
  unfold range_elems. rewrite list_lookup_fmap, lookup_seqZ_lt by lia.
  simpl. do 3 f_equal. lia.
Qed.

Lemma range_in_divide r x :
  range_wf r →
  range_in x r = true ↔
    ((0 < step r ∧ start r ≤ x < stop r) ∨ (step r < 0 ∧ stop r < x ≤ start r))
    ∧ (step r | x - start r).
Proof.
  unfold range_wf, range_in. intros Hwf.
  destruct (decide (0 < step r)) as [Hs|Hs];
    rewrite andb_true_iff, !bool_decide_eq_true, Z.mod_divide by lia.
  - intuition lia.
  - replace (start r - x) with (- (x - start r)) by lia.
    rewrite Z.divide_opp_l, Z.divide_opp_r. intuition lia.
Qed.

(** The check decides inclusion of the iterated values. *)
Lemma range_contains_subset inner outer :
  range_wf inner → range_wf outer →
  range_contains inner outer = true ↔ range_elems inner ⊆ range_elems outer.
Proof.
  intros Hi Ho. pose proof (range_len_nonneg inner) as Hn0.
  assert (∀ x, x ∈ range_elems outer ↔
    ((0 < step outer ∧ start outer ≤ x < stop outer)
     ∨ (step outer < 0 ∧ stop outer < x ≤ start outer))
    ∧ (step outer | x - start outer)) as Hout.
  { intros x. by rewrite <-range_in_elems, range_in_divide. }
  assert (∀ k, 0 ≤ k < range_len inner → start inner + k * step inner ∈ range_elems inner)
    as Hin.
  { intros k Hk. apply elem_of_range_elems_index. eauto. }
  unfold range_contains.
  destruct (decide (range_len inner = 0)) as [Hz|Hz].
  { split; [|done]. intros _ x [k [Hk _]]%elem_of_range_elems_index. lia. }
  destruct (range_in (start inner) outer) eqn:Hstart; simpl.
  2:{ split; [done|]. intros Hsub.
      apply not_true_iff_false in Hstart. destruct Hstart.
      apply range_in_elems; [done|]. apply Hsub.
      replace (start inner) with (start inner + 0 * step inner) by lia.
      apply Hin. lia. }
  apply range_in_elems in Hstart; [|done].
  destruct (decide (range_len inner = 1)) as [H1|H1].
  { split; [|done]. intros _ x [k [Hk ->]]%elem_of_range_elems_index.
    replace k with 0 by lia. by replace (start inner + 0 * step inner) with (start inner) by lia. }
  rewrite range_getitem_last by lia.
  destruct (range_in _ outer) eqn:Hlast; simpl.
  2:{ split; [done|]. intros Hsub.
      apply not_true_iff_false in Hlast. destruct Hlast.
      apply range_in_elems; [done|]. apply Hsub, Hin. lia. }
  apply range_in_elems in Hlast; [|done].
  apply Hout in Hstart as [Hsb Hsd]. apply Hout in Hlast as [Hlb Hld].
  destruct (decide (range_len inner = 2)) as [H2|H2].
  { split; [|done]. intros _ x [k [Hk ->]]%elem_of_range_elems_index.
    apply Hout. assert (k = 0 ∨ k = 1) as [->| ->] by lia.
    - replace (start inner + 0 * step inner) with (start inner) by lia. done.
    - rewrite H2 in Hlb, Hld. done. }
  rewrite bool_decide_eq_true, Z.mod_divide by done. split.
  - intros Hdiv x [k [Hk ->]]%elem_of_range_elems_index. apply Hout. split.
    + unfold range_wf in Hi. nia.
    + replace (start inner + k * step inner - start outer)
        with ((start inner - start outer) + k * step inner) by lia.
      apply Z.divide_add_r; [done|]. by apply Z.divide_mul_r.
  - intros Hsub.
    assert (start inner + 1 * step inner ∈ range_elems outer) as [_ Hd]%Hout
      by (apply Hsub, Hin; lia).
    replace (step inner)
      with ((start inner + 1 * step inner - start outer) - (start inner - start outer)) by lia.
    by apply Z.divide_sub_r.
Qed.

(** C4.  [range_contains] applies the six rules in their order, read on the
    values the ranges iterate over: an empty inner range is contained; an
    inner range whose start is not in the outer one is not; an inner range
    of exactly one element is; one whose last element is not in the outer
    range is not; one of exactly two elements is; and any longer one is
    contained exactly when the inner step is a multiple of the outer step
    ([inner.step mod outer.step = 0]). *)
Theorem range_contains_rules (inner outer : range) :
  range_wf outer →
  let n := length (range_elems inner) in
  let start_in := start inner ∈ range_elems outer in
  let last_in := ∃ l, last (range_elems inner) = Some l ∧ l ∈ range_elems outer in
  (n = 0%nat → range_contains inner outer = true)
  ∧ (n ≠ 0%nat → ¬ start_in → range_contains inner outer = false)
  ∧ (n = 1%nat → start_in → range_contains inner outer = true)
  ∧ ((2 ≤ n)%nat → start_in → ¬ last_in → range_contains inner outer = false)
  ∧ (n = 2%nat → start_in → last_in → range_contains inner outer = true)
  ∧ ((3 ≤ n)%nat → start_in → last_in →
     range_contains inner outer = bool_decide (step inner `mod` step outer = 0)).
Proof.
  intros Ho n start_in last_in. subst n start_in last_in.
  rewrite length_range_elems. pose proof (range_len_nonneg inner) as Hn0.
  unfold range_contains.
  repeat split.
  - intros Hn. rewrite decide_True by lia. done.
  - intros Hn Hs. rewrite decide_False by lia.
    rewrite <-range_in_elems, not_true_iff_false in Hs by done. by rewrite Hs.
  - intros Hn Hs. rewrite decide_False by lia.
    apply range_in_elems in Hs; [|done]. rewrite Hs. simpl.
    rewrite decide_True by lia. done.
  - intros Hn Hs Hl. rewrite decide_False by lia.
    apply range_in_elems in Hs; [|done]. rewrite Hs. simpl.
    rewrite decide_False by lia. rewrite range_getitem_last by lia.
    clear Hs. destruct (range_in _ outer) eqn:Hlast; [|done].
    destruct Hl. eexists. split; [apply last_range_elems; lia|].
    apply (range_in_elems outer _ Ho). exact Hlast.
  - intros Hn Hs (l & Hl & Hlo). rewrite decide_False by lia.
    apply range_in_elems in Hs; [|done]. rewrite Hs. simpl.
    rewrite decide_False by lia. rewrite range_getitem_last by lia.
    rewrite last_range_elems in Hl by lia. injection Hl as <-.
    apply range_in_elems in Hlo; [|done]. rewrite Hlo. simpl.
    rewrite decide_True by lia. done.
  - intros Hn Hs (l & Hl & Hlo). rewrite decide_False by lia.
    apply range_in_elems in Hs; [|done]. rewrite Hs. simpl.
    rewrite decide_False by lia. rewrite range_getitem_last by lia.
    rewrite last_range_elems in Hl by lia. injection Hl as <-.
    apply range_in_elems in Hlo; [|done]. rewrite Hlo. simpl.
    rewrite decide_False by lia. done.
Qed.

Lemma range_contains_rules_witness :
  range_wf (py_range 0 10)
  ∧ range_contains (py_range 2 5) (py_range 0 10)
    = bool_decide (step (py_range 2 5) `mod` step (py_range 0 10) = 0).
Proof.
  split; [discriminate|].
  apply (range_contains_rules (py_range 2 5) (py_range 0 10)).
  - discriminate.
  - vm_compute. lia.
  - apply range_in_elems; [discriminate|reflexivity].
  - exists 4. split; [reflexivity|]. apply range_in_elems; [discriminate|reflexivity].
Defined.

(** ** Resumability filter *)

Lemma elem_of_py_range a b x : x ∈ range_elems (py_range a b) ↔ a ≤ x < b.
Proof.
  rewrite <-range_in_elems by discriminate.
  unfold range_in, py_range; simpl.
  rewrite andb_true_iff, !bool_decide_eq_true, Z.mod_1_r. tauto.
Qed.

Lemma elem_of_product4 rT rZ rY rX p :
  p ∈ product4 rT rZ rY rX ↔
    T4 p ∈ range_elems rT ∧ Z4 p ∈ range_elems rZ
    ∧ Y4 p ∈ range_elems rY ∧ X4 p ∈ range_elems rX.
Proof.
  unfold product4. split.
  - intros (t & (z & (y & (x & ->%list_elem_of_singleton & Hx)%list_elem_of_bind & Hy)
      %list_elem_of_bind & Hz)%list_elem_of_bind & Ht)%list_elem_of_bind.
    done.
  - destruct p as [t z y x]; simpl. intros (Ht & Hz & Hy & Hx).
    apply list_elem_of_bind. exists t. split; [|done].
    apply list_elem_of_bind. exists z. split; [|done].
    apply list_elem_of_bind. exists y. split; [|done].
    apply list_elem_of_bind. exists x. split; [|done].
    by apply list_elem_of_singleton.
Qed.

Lemma check_existing_chunks_true da_chunk chunk_ratios existing_chunks :
  check_existing_chunks da_chunk chunk_ratios existing_chunks = true ↔
    ∀ p, storage_footprint da_chunk chunk_ratios p → p ∈ existing_chunks.
Proof.
  unfold check_existing_chunks. rewrite forallb_forall. split.
  - intros Hall p (Ht & Hz & Hy & Hx).
    eapply bool_decide_eq_true, Hall, list_elem_of_In, elem_of_product4.
    by rewrite !elem_of_py_range.
  - intros Hall p Hp%list_elem_of_In%elem_of_product4.
    rewrite !elem_of_py_range in Hp. by apply bool_decide_eq_true, Hall.
Qed.

(** C6.  The resumability filter answers true exactly when every storage
    coordinate in the product of the per-axis ranges
    [tile_index * ratio, (tile_index + 1) * ratio) is in the set of existing
    chunks: with all of them present the tile is skipped, and with any one
    of them removed it is not. *)
Theorem check_existing_chunks_spec (da_chunk chunk_ratios : TZYX)
    (existing_chunks : gset TZYX) :
  (check_existing_chunks da_chunk chunk_ratios existing_chunks = true ↔
     ∀ p, storage_footprint da_chunk chunk_ratios p → p ∈ existing_chunks)
  ∧ ((∀ p, storage_footprint da_chunk chunk_ratios p → p ∈ existing_chunks) →
     check_existing_chunks da_chunk chunk_ratios existing_chunks = true
     ∧ ∀ q, storage_footprint da_chunk chunk_ratios q →
         check_existing_chunks da_chunk chunk_ratios (existing_chunks ∖ {[q]}) = false).
Proof.
  split; [apply check_existing_chunks_true|].
  intros Hall. split; [by apply check_existing_chunks_true|].
  intros q Hq. apply not_true_iff_false. intros Hskip.
  rewrite check_existing_chunks_true in Hskip.
  apply Hskip, elem_of_difference in Hq as [_ Hq]. by apply Hq, elem_of_singleton.
Qed.

Lemma check_existing_chunks_spec_witness :
  let stored : gset TZYX :=
    list_to_set [mkTZYX 0 0 0 0; mkTZYX 0 0 0 1; mkTZYX 0 0 1 0; mkTZYX 0 0 1 1] in
  check_existing_chunks (mkTZYX 0 0 0 0) (mkTZYX 1 1 2 2) stored = true
  ∧ check_existing_chunks (mkTZYX 0 0 0 0) (mkTZYX 1 1 2 2)
      (stored ∖ {[mkTZYX 0 0 1 0]}) = false.
Proof.
  intros stored.
  assert (∀ p, storage_footprint (mkTZYX 0 0 0 0) (mkTZYX 1 1 2 2) p → p ∈ stored)
    as Hall.
  { intros [t z y x] (Ht & Hz & Hy & Hx); simpl in Ht, Hz, Hy, Hx.
    assert (t = 0) as -> by lia. assert (z = 0) as -> by lia.
    assert (y = 0 ∨ y = 1) as [-> | ->] by lia;
      assert (x = 0 ∨ x = 1) as [-> | ->] by lia;
      apply elem_of_list_to_set, list_elem_of_In; simpl; tauto. }
  destruct (check_existing_chunks_spec (mkTZYX 0 0 0 0) (mkTZYX 1 1 2 2) stored)
    as [_ Hspec].
  destruct (Hspec Hall) as [Hskip Hredo].
  split; [exact Hskip|].
  apply Hredo. repeat split; simpl; lia.
Defined.

(** C9.  A chunk ratio of zero on any axis makes the filter answer true for
    every tile index and every set of existing chunks: the range of that
    axis is empty, so is the product, and nothing is asked of the set. *)
Theorem check_existing_chunks_zero_ratio (da_chunk chunk_ratios : TZYX)
    (existing_chunks : gset TZYX) :
  T4 chunk_ratios = 0 ∨ Z4 chunk_ratios = 0 ∨ Y4 chunk_ratios = 0 ∨ X4 chunk_ratios = 0 →
  check_existing_chunks da_chunk chunk_ratios existing_chunks = true.
Proof.
  intros Hzero. apply check_existing_chunks_true.
  intros p (Ht & Hz & Hy & Hx). lia.
Qed.

Lemma check_existing_chunks_zero_ratio_witness :
  check_existing_chunks (mkTZYX 3 0 1 2) (mkTZYX 1 1 0 2) ∅ = true.
Proof.
  apply (check_existing_chunks_zero_ratio (mkTZYX 3 0 1 2) (mkTZYX 1 1 0 2) ∅).
  right. right. left. reflexivity.
Defined.

(** ** The [result] monad over lists *)

Lemma mapM_Ok {A B} (f : A → result B) (l : list A) (ys : list B) :
  mapM f l = Ok ys ↔ Forall2 (λ x y, f x = Ok y) l ys.
Proof.
  revert ys. induction l as [|x l IH]; intros ys; simpl.
  - split; [intros [= <-]; constructor|by inversion 1].
  - unfold mbind, result_bind at 1. destruct (f x) as [y|e] eqn:Hfx.
    + unfold mbind, result_bind at 1. destruct (mapM f l) as [k|e] eqn:Hl.
      * split.
        -- intros [= <-]. constructor; [done|]. by apply IH.
        -- inversion 1 as [|?? y' k' Hy Hk]; subst. apply IH in Hk.
           rewrite Hfx in Hy. by simplify_eq.
      * split; [done|]. inversion 1 as [|?? y' k' Hy Hk]; subst.
        apply IH in Hk. done.
    + split; [done|]. inversion 1 as [|?? y' k' Hy Hk]; subst. congruence.
Qed.

Lemma mapM_result_ext {A B} (f g : A → result B) (l : list A) :
  (∀ x, x ∈ l → f x = g x) → mapM f l = mapM g l.
Proof.
  induction l as [|x l IH]; intros Hfg; [done|]. simpl.
  rewrite Hfg by left. rewrite IH; [done|]. intros y Hy. apply Hfg. by right.
Qed.


(** ** Tile plan builder *)

Lemma zip_fmap_diag {A B} (f : A → B) (l : list A) :
  zip l (f <$> l) = (λ x, (x, f x)) <$> l.
Proof. induction l as [|x l IH]; [done|]. simpl. f_equal. apply IH. Qed.

Lemma enumerate_range_fmap r :
  enumerate_range r = (λ k, (k, start r + k * step r)) <$> seqZ 0 (range_len r).
Proof. apply zip_fmap_diag. Qed.

Lemma elem_of_enumerate_range r i v :
  (i, v) ∈ enumerate_range r ↔ 0 ≤ i < range_len r ∧ v = start r + i * step r.
Proof.
  rewrite enumerate_range_fmap, list_elem_of_fmap. split.
  - intros (k & [= -> ->] & Hk%elem_of_seqZ). split; [lia|done].
  - intros [Hi ->]. exists i. split; [done|]. apply elem_of_seqZ. lia.
Qed.

Lemma py_range3_Ok a b c r : py_range3 a b c = Ok r → c ≠ 0 ∧ r = mk_range a b c.
Proof. unfold py_range3. case_decide; [done|]. by intros [= <-]. Qed.

(** A loop over a range whose body yields a list per iteration and whose
    results are gathered: when it succeeds the step is not zero, the body
    succeeds at every iteration, and the items gathered are those of the
    iterations. *)
Lemma range_loop_Ok {B} (a b c : Z) (body : Z * Z → result (list B)) (r : list B) :
  (rng ← py_range3 a b c; mjoin <$> mapM body (enumerate_range rng)) = Ok r →
  c ≠ 0
  ∧ (∀ i, 0 ≤ i < range_len (mk_range a b c) →
       ∃ ys, body (i, a + i * c) = Ok ys ∧ ∀ x, x ∈ ys → x ∈ r)
  ∧ (∀ x, x ∈ r →
       ∃ i ys, 0 ≤ i < range_len (mk_range a b c) ∧ body (i, a + i * c) = Ok ys ∧ x ∈ ys).
Proof.
  unfold mbind at 1, result_bind at 1.
  destruct (py_range3 a b c) as [rng|] eqn:Hrng; [|done].
  apply py_range3_Ok in Hrng as [Hc ->].
  unfold fmap, result_fmap.
  destruct (mapM body _) as [yss|e] eqn:Hm; [|done].
  intros [= <-]. apply mapM_Ok in Hm. split; [done|]. split.
  - intros i Hi.
    assert ((i, a + i * c) ∈ enumerate_range (mk_range a b c)) as Hin
      by by apply elem_of_enumerate_range.
    destruct (proj1 (list_elem_of_lookup _ _) Hin) as [n Hn].
    destruct (Forall2_lookup_l _ _ _ _ _ Hm Hn) as (ys & Hys & Hbody).
    exists ys. split; [done|]. intros x Hx. apply list_elem_of_join.
    exists ys. split; [done|]. by eapply list_elem_of_lookup_2.
  - intros x (ys & Hx & Hys)%list_elem_of_join.
    destruct (proj1 (list_elem_of_lookup _ _) Hys) as [n Hn].
    destruct (Forall2_lookup_r _ _ _ _ _ Hm Hn) as ([i v] & Hiv & Hbody).
    apply list_elem_of_lookup_2, elem_of_enumerate_range in Hiv as [Hi ->].
    by exists i, ys.
Qed.

(** What a tile of the plan is: its grid index lies on the grid of the four
    loops, it failed the resumability filter, and its load arguments are
    the four windows computed from the loop variables. *)
Lemma elem_of_load_chunks_from_czi input_file chunk_sizes overlap existing_chunks
    chunk_ratios scene plan ind a :
  load_chunks_from_czi input_file chunk_sizes overlap existing_chunks chunk_ratios scene
    = Ok plan →
  (ind, a) ∈ plan ↔
    let T := extent (bbox_T (total_bounding_box input_file)) in
    let Z' := extent (bbox_Z (total_bounding_box input_file)) in
    let R := bound_rect input_file scene in
    (0 ≤ T4 ind < range_len (mk_range 0 T (T4 chunk_sizes))
     ∧ 0 ≤ Z4 ind < range_len (mk_range 0 Z' (Z4 chunk_sizes))
     ∧ 0 ≤ Y4 ind < range_len (mk_range (rect_y R) (rect_y R + rect_h R) (Y4 chunk_sizes))
     ∧ 0 ≤ X4 ind < range_len (mk_range (rect_x R) (rect_x R + rect_w R) (X4 chunk_sizes)))
    ∧ check_existing_chunks ind chunk_ratios existing_chunks = false
    ∧ a = mk_load_args
        (axis_window 0 T (T4 chunk_sizes) (T4 overlap) (T4 ind))
        (axis_window 0 Z' (Z4 chunk_sizes) (Z4 overlap) (Z4 ind))
        (axis_window (rect_y R) (rect_h R) (Y4 chunk_sizes) (Y4 overlap) (Y4 ind))
        (axis_window (rect_x R) (rect_w R) (X4 chunk_sizes) (X4 overlap) (X4 ind))
        scene.
Proof.
  unfold load_chunks_from_czi. cbn zeta.
  set (T := extent (bbox_T (total_bounding_box input_file))).
  set (Z' := extent (bbox_Z (total_bounding_box input_file))).
  set (R := bound_rect input_file scene).
  intros (_ & HallT & HinT)%range_loop_Ok. split.
  - intros (t_ind & pz & Hti & (_ & _ & HinZ)%range_loop_Ok & Hin)%HinT.
    apply HinZ in Hin as (z_ind & py & Hzi & (_ & _ & HinY)%range_loop_Ok & Hin).
    apply HinY in Hin as (y_ind & px & Hyi & (_ & _ & HinX)%range_loop_Ok & Hin).
    apply HinX in Hin as (x_ind & pp & Hxi & Hbody & Hin).
    destruct (check_existing_chunks _ _ _) eqn:Hskip; simpl in Hbody;
      injection Hbody as <-; [by apply elem_of_nil in Hin|].
    apply list_elem_of_singleton in Hin. injection Hin as -> ->. simpl.
    split; [done|]. split; [done|]. unfold axis_window. simpl.
    repeat f_equal; lia.
  - destruct ind as [t_ind z_ind y_ind x_ind]. simpl.
    intros ((Hti & Hzi & Hyi & Hxi) & Hskip & ->).
    destruct (HallT _ Hti) as (pz & (_ & HallZ & _)%range_loop_Ok & Hpz).
    destruct (HallZ _ Hzi) as (py & (_ & HallY & _)%range_loop_Ok & Hpy).
    destruct (HallY _ Hyi) as (px & (_ & HallX & _)%range_loop_Ok & Hpx).
    destruct (HallX _ Hxi) as (pp & Hbody & Hpp).
    rewrite Hskip in Hbody. simpl in Hbody. injection Hbody as <-.
    apply Hpz, Hpy, Hpx, Hpp, list_elem_of_singleton.
    unfold axis_window. simpl. repeat f_equal; lia.
Qed.

(** C5.  Every tile of the plan has, on each axis, the read window
    [max(axis_start - overlap, axis_min),
     min(axis_min + axis_extent, axis_start + tile_size + overlap))
    where [axis_start = axis_min + tile_index * tile_size], and every value
    of that window is a valid coordinate of the axis: [0, extent) for time
    and depth, [origin, origin + extent) for rows and columns.  The
    windows are clamped at the grid boundary. *)
Theorem read_windows_clamped (input_file : czi_file) (chunk_sizes overlap : TZYX)
    (existing_chunks : gset TZYX) (chunk_ratios : TZYX) (scene : Z)
    (plan : list (TZYX * load_args)) (ind : TZYX) (a : load_args) :
  load_chunks_from_czi input_file chunk_sizes overlap existing_chunks chunk_ratios scene
    = Ok plan →
  (ind, a) ∈ plan →
  let T := extent (bbox_T (total_bounding_box input_file)) in
  let Z' := extent (bbox_Z (total_bounding_box input_file)) in
  let R := bound_rect input_file scene in
  (t_range a = axis_window 0 T (T4 chunk_sizes) (T4 overlap) (T4 ind)
   ∧ window_within (t_range a) 0 T)
  ∧ (z_range a = axis_window 0 Z' (Z4 chunk_sizes) (Z4 overlap) (Z4 ind)
     ∧ window_within (z_range a) 0 Z')
  ∧ (y_range a = axis_window (rect_y R) (rect_h R) (Y4 chunk_sizes) (Y4 overlap) (Y4 ind)
     ∧ window_within (y_range a) (rect_y R) (rect_h R))
  ∧ (x_range a = axis_window (rect_x R) (rect_w R) (X4 chunk_sizes) (X4 overlap) (X4 ind)
     ∧ window_within (x_range a) (rect_x R) (rect_w R)).
Proof.
  intros Hplan Hin. apply (elem_of_load_chunks_from_czi _ _ _ _ _ _ _ _ _ Hplan) in Hin.
  cbn zeta in Hin. destruct Hin as (_ & _ & ->). simpl.
  unfold window_within, axis_window.
  repeat split; try done;
    match goal with H : _ ∈ range_elems _ |- _ => apply elem_of_py_range in H end; lia.
Qed.

Lemma read_windows_clamped_witness :
  y_range (mk_load_args (py_range 1 4) (py_range 0 1) (py_range 3 8) (py_range 3 8) 0)
    = axis_window 0 8 4 1 1
  ∧ window_within (py_range 3 8) 0 8.
Proof.
  refine (proj1 (proj2 (proj2
    (read_windows_clamped (scenario_file blank) scenario_tile scenario_overlap ∅
       (mkTZYX 1 1 1 1) 0 _ (mkTZYX 1 0 1 1) _ eq_refl _)))).
  apply list_elem_of_In. vm_compute. tauto.
Defined.

(** ** Tile loader *)




(** ** Overlap trimmer *)

Lemma trim_axes_slices ch_index chunk_array overlaps :
  trim_axes ch_index chunk_array overlaps =
    [trim_slice (T4 ch_index) (T4 chunk_array) (T4 overlaps);
     mk_slice 0 None;
     trim_slice (Z4 ch_index) (Z4 chunk_array) (Z4 overlaps);
     trim_slice (Y4 ch_index) (Y4 chunk_array) (Y4 overlaps);
     trim_slice (X4 ch_index) (X4 chunk_array) (X4 overlaps)].
Proof. reflexivity. Qed.

Lemma slice_bounds_whole n : 0 ≤ n → slice_bounds (mk_slice 0 None) n = (0, n).
Proof. intros Hn. unfold slice_bounds, clip_index; simpl. f_equal. lia. Qed.

(** C7.  [trim] slices each tiled axis from [overlaps[i]] when
    [tile_index[i] > 0] and from 0 otherwise, up to [-overlaps[i]] when
    [overlaps[i] > 0] and [tile_index[i] < grid_dims[i] - 1] and to the end
    otherwise.  So a tile at grid position 0 of an axis keeps its low side
    and a tile at the last grid position keeps its high side, whatever the
    overlap; and the channel axis comes through whole. *)
Theorem trim_slices (block : ndarray) (ch_index chunk_array overlaps : TZYX) :
  shape_wf (shape block) →
  let sh := shape block in
  let sT := trim_slice (T4 ch_index) (T4 chunk_array) (T4 overlaps) in
  let sZ := trim_slice (Z4 ch_index) (Z4 chunk_array) (Z4 overlaps) in
  let sY := trim_slice (Y4 ch_index) (Y4 chunk_array) (Y4 overlaps) in
  let sX := trim_slice (X4 ch_index) (X4 chunk_array) (X4 overlaps) in
  (∃ trimmed, trim block ch_index chunk_array overlaps = Ok trimmed
     ∧ shape trimmed = mkTCZYX (slice_len sT (T5 sh)) (C5 sh) (slice_len sZ (Z5 sh))
                               (slice_len sY (Y5 sh)) (slice_len sX (X5 sh))
     ∧ ∀ t c z y x, item trimmed t c z y x =
         item block ((slice_bounds sT (T5 sh)).1 + t) c ((slice_bounds sZ (Z5 sh)).1 + z)
                    ((slice_bounds sY (Y5 sh)).1 + y) ((slice_bounds sX (X5 sh)).1 + x))
  ∧ (∀ grid_dim overlap n, 0 ≤ n →
       (slice_bounds (trim_slice 0 grid_dim overlap) n).1 = 0)
  ∧ (∀ grid_dim overlap n,
       (slice_bounds (trim_slice (grid_dim - 1) grid_dim overlap) n).2 = n).
Proof.
  intros (HT & HC & HZ & HY & HX) sh sT sZ sY sX. split; [|split].
  - unfold trim. rewrite trim_axes_slices. eexists. split; [reflexivity|].
    simpl. unfold slice_len. rewrite slice_bounds_whole by done. simpl.
    split.
    + subst sh. f_equal. lia.
    + intros t c z y x. subst sh. f_equal. unfold clip_index. case_decide; lia.
  - intros grid_dim overlap n Hn. unfold trim_slice, slice_bounds, clip_index. simpl. lia.
  - intros grid_dim overlap n. unfold trim_slice, slice_bounds. simpl.
    rewrite decide_False by lia. done.
Qed.

Lemma trim_slices_witness :
  ∃ trimmed,
    trim (mk_ndarray (mkTCZYX 3 2 1 5 5) (λ t c z y x, 1000 * t + 100 * c + 10 * y + x))
         (mkTZYX 0 0 1 0) (mkTZYX 2 1 2 2) (mkTZYX 1 0 1 1) = Ok trimmed
    ∧ shape trimmed = mkTCZYX 2 2 1 4 4
    ∧ ∀ t c z y x, item trimmed t c z y x = 1000 * (0 + t) + 100 * c + 10 * (1 + y) + (0 + x).
Proof.
  apply (trim_slices
    (mk_ndarray (mkTCZYX 3 2 1 5 5) (λ t c z y x, 1000 * t + 100 * c + 10 * y + x))
    (mkTZYX 0 0 1 0) (mkTZYX 2 1 2 2) (mkTZYX 1 0 1 1)).
  repeat split; simpl; lia.
Defined.

(** ** Start-up checks of the driver *)

Lemma check_chunk_sizes_Ok output_zarr_chunks chunk_sizes :
  check_chunk_sizes output_zarr_chunks chunk_sizes = Ok () ↔
    chunks_fit output_zarr_chunks chunk_sizes
    ∧ T5 output_zarr_chunks ≠ 0 ∧ Z5 output_zarr_chunks ≠ 0
    ∧ Y5 output_zarr_chunks ≠ 0 ∧ X5 output_zarr_chunks ≠ 0.
Proof.
  destruct output_zarr_chunks as [fT fC fZ fY fX], chunk_sizes as [dT dZ dY dX].
  unfold check_chunk_sizes, chunks_fit.
  match goal with |- context [mapM ?b _] => set (body := b) end.
  assert (∀ f d, body (f, d) = Ok () ↔ f ≠ 0 ∧ chunk_fits f d) as Hbody.
  { intros f d. unfold body, py_mod, chunk_fits.
    destruct (decide (f > d)); [split; [done|lia]|].
    destruct (decide (f = 0)) as [->|Hf]; simpl; [split; [done|tauto]|].
    rewrite <-Z.mod_divide by done.
    destruct (decide (d `mod` f ≠ 0)); [split; [done|tauto]|].
    split; [intros _|done]. split; [done|]. split; [lia|]. by apply dec_stable. }
  clearbody body. simpl. unfold mbind, result_bind, mret, result_ret.
  destruct (body (fT, dT)) as [[]|?] eqn:HT; [apply Hbody in HT|];
    [|split; [done|]; intros ((HT'&?&?&?)&?&?&?&?);
      assert (body (fT, dT) = Ok ()) by (by apply Hbody); congruence].
  destruct (body (fZ, dZ)) as [[]|?] eqn:HZ; [apply Hbody in HZ|];
    [|split; [done|]; intros ((?&?&?&?)&?&?&?&?);
      assert (body (fZ, dZ) = Ok ()) by (by apply Hbody); congruence].
  destruct (body (fY, dY)) as [[]|?] eqn:HY; [apply Hbody in HY|];
    [|split; [done|]; intros ((?&?&?&?)&?&?&?&?);
      assert (body (fY, dY) = Ok ()) by (by apply Hbody); congruence].
  destruct (body (fX, dX)) as [[]|?] eqn:HX; [apply Hbody in HX|];
    [|split; [done|]; intros ((?&?&?&?)&?&?&?&?);
      assert (body (fX, dX) = Ok ()) by (by apply Hbody); congruence].
  split; [intros _; tauto|done].
Qed.

Lemma result_unit_cases (m : result ()) : m = Ok () ∨ ∃ e, m = Raise e.
Proof. destruct m as [[]|e]; eauto. Qed.

(** C8.  At start-up the store's chunk size must, on every axis, be no
    larger than the tile size and divide it; otherwise the check raises and
    the driver stops with that exception, so that no task graph is built.
    Tile size 100 with chunk size 64 is refused as not a multiple; tile size
    128 with chunk size 64 is accepted and gives ratio 2. *)
Theorem startup_chunk_check (int : string → result Z) (input_file : czi_file)
    (p : parameters) (found : option zarr_array) :
  let output_zarr :=
    open_or_create found (get_czi_scene_shape input_file (scene p)) (output_chunks p) in
  (¬ chunks_fit (zarr_chunks output_zarr) (chunk_sizes p) →
     (∃ e, check_chunk_sizes (zarr_chunks output_zarr) (chunk_sizes p) = Raise e)
     ∧ ∃ e, driver int input_file p found = Raise e)
  ∧ check_chunk_sizes (mkTCZYX 64 1 64 64 64) (mkTZYX 100 100 100 100)
      = Raise (ValueError "Dask chunks not multiples of output chunks")
  ∧ check_chunk_sizes (mkTCZYX 64 1 64 64 64) (mkTZYX 128 128 128 128) = Ok ()
  ∧ chunk_ratios_of (mkTZYX 128 128 128 128) (mkTCZYX 64 1 64 64 64)
      = Ok (mkTZYX 2 2 2 2).
Proof.
  intros output_zarr. split; [|by repeat split].
  intros Hbad.
  assert (∃ e, check_chunk_sizes (zarr_chunks output_zarr) (chunk_sizes p) = Raise e)
    as [e He].
  { destruct (result_unit_cases
      (check_chunk_sizes (zarr_chunks output_zarr) (chunk_sizes p))) as [Hok|?]; [|done].
    apply check_chunk_sizes_Ok in Hok. tauto. }
  split; [by exists e|].
  unfold driver. fold output_zarr. rewrite He.
  destruct (get_chunk_dims _ _); simpl; eauto.
Qed.

Lemma startup_chunk_check_witness :
  ∃ e, driver int_decimal (scenario_file blank)
         (mk_parameters 0 (mkTZYX 2 1 100 100) scenario_overlap (mkTCZYX 1 1 1 64 64)) None
       = Raise e.
Proof.
  apply (startup_chunk_check int_decimal (scenario_file blank)
    (mk_parameters 0 (mkTZYX 2 1 100 100) scenario_overlap (mkTCZYX 1 1 1 64 64)) None).
  intros (_ & _ & [_ [k Hk]] & _). simpl in Hk. lia.
Defined.

(** ** The snapshot of existing chunks *)

Lemma elem_of_existing_chunks_of int keys E :
  existing_chunks_of int keys = Ok E → ∀ p, p ∈ E ↔ key_for int keys p.
Proof.
  unfold existing_chunks_of, key_for, fmap at 1, result_fmap at 1.
  destruct (mapM _ _) as [ps|e] eqn:Hm; [|done].
  intros [= <-] p. apply mapM_Ok in Hm. rewrite elem_of_list_to_set. split.
  - intros Hp. destruct (proj1 (list_elem_of_lookup _ _) Hp) as [i Hi].
    destruct (Forall2_lookup_r _ _ _ _ _ Hm Hi) as (k & Hk & Hparse).
    apply list_elem_of_lookup_2, list_elem_of_filter in Hk as [Hne Hk].
    destruct (parse_key int k) as [c|] eqn:Hc; [|done].
    injection Hparse as <-. by exists k, c.
  - intros (k & c & Hk & Hne & Hparse & <-).
    assert (k ∈ filter (λ k, k ≠ ".zarray") keys) as Hin
      by by apply list_elem_of_filter.
    destruct (proj1 (list_elem_of_lookup _ _) Hin) as [i Hi].
    destruct (Forall2_lookup_l _ _ _ _ _ Hm Hi) as (q & Hq & Hparse').
    rewrite Hparse in Hparse'. injection Hparse' as <-.
    by eapply list_elem_of_lookup_2.
Qed.

(** C10.  The snapshot holds the storage coordinate of every store key
    other than ".zarray", parsed as a TCZYX coordinate with the channel
    dropped: one key, for whatever channel, records its TZYX coordinate as
    existing, and two stores whose keys name the same TZYX coordinates give
    the same skip decision for every tile, whichever channels they hold. *)
Theorem existing_chunks_ignore_channel (int : string → result Z) (keys : list string)
    (E : gset TZYX) :
  existing_chunks_of int keys = Ok E →
  (∀ p, p ∈ E ↔ key_for int keys p)
  ∧ (∀ k t c z y x, k ∈ keys → k ≠ ".zarray" →
       parse_key int k = Ok (mkTCZYX t c z y x) → mkTZYX t z y x ∈ E)
  ∧ (∀ keys' E', existing_chunks_of int keys' = Ok E' →
       (∀ p, key_for int keys p ↔ key_for int keys' p) →
       ∀ da_chunk chunk_ratios,
         check_existing_chunks da_chunk chunk_ratios E
         = check_existing_chunks da_chunk chunk_ratios E').
Proof.
  intros HE. pose proof (elem_of_existing_chunks_of _ _ _ HE) as Hin.
  split; [done|]. split.
  - intros k t c z y x Hk Hne Hparse. apply Hin. by exists k, (mkTCZYX t c z y x).
  - intros keys' E' HE' Hsame da_chunk chunk_ratios.
    pose proof (elem_of_existing_chunks_of _ _ _ HE') as Hin'.
    assert (E = E') as ->; [|done].
    apply set_eq. intros p. by rewrite Hin, Hin', Hsame.
Qed.

Lemma existing_chunks_ignore_channel_witness :
  mkTZYX 0 0 2 3 ∈ (list_to_set [mkTZYX 0 0 2 3] : gset TZYX).
Proof.
  apply (existing_chunks_ignore_channel int_decimal [".zarray"; "0.1.0.2.3"]
           (list_to_set [mkTZYX 0 0 2 3]) eq_refl) with (k := "0.1.0.2.3") (c := 1).
  - apply list_elem_of_In. simpl. tauto.
  - discriminate.
  - reflexivity.
Defined.

Example skipped_with_one_channel_stored :
  existing_chunks_of int_decimal [".zarray"; "0.1.0.2.3"] = Ok {[mkTZYX 0 0 2 3]}
  ∧ check_existing_chunks (mkTZYX 0 0 2 3) (mkTZYX 1 1 1 1) {[mkTZYX 0 0 2 3]} = true.
Proof. split; reflexivity. Qed.

(** ** The pipeline on concrete volumes *)

(** A tile is never skipped on an empty store when the ratios are positive. *)
Lemma check_existing_chunks_empty da_chunk chunk_ratios :
  0 < T4 chunk_ratios → 0 < Z4 chunk_ratios → 0 < Y4 chunk_ratios → 0 < X4 chunk_ratios →
  check_existing_chunks da_chunk chunk_ratios ∅ = false.
Proof.
  intros HT HZ HY HX. apply not_true_iff_false. intros Hskip.
  rewrite check_existing_chunks_true in Hskip.
  apply (not_elem_of_empty (C:=gset TZYX)
    (mkTZYX (T4 da_chunk * T4 chunk_ratios) (Z4 da_chunk * Z4 chunk_ratios)
            (Y4 da_chunk * Y4 chunk_ratios) (X4 da_chunk * X4 chunk_ratios))).
  apply Hskip. repeat split; simpl; lia.
Qed.

(** The plan depends on the store and the ratios only through the filter. *)
Lemma load_chunks_from_czi_filter_ext input_file chunk_sizes overlap E E' r r' scene :
  (∀ ind, check_existing_chunks ind r E = check_existing_chunks ind r' E') →
  load_chunks_from_czi input_file chunk_sizes overlap E r scene
  = load_chunks_from_czi input_file chunk_sizes overlap E' r' scene.
Proof.
  intros Hsame. unfold load_chunks_from_czi. cbn zeta.
  unfold mbind, result_bind.
  destruct (py_range3 0 _ (T4 chunk_sizes)); [|done].
  f_equal. apply mapM_result_ext. intros [t_ind t] _.
  destruct (py_range3 0 _ (Z4 chunk_sizes)); [|done].
  f_equal. apply mapM_result_ext. intros [z_ind z] _.
  destruct (py_range3 _ _ (Y4 chunk_sizes)); [|done].
  f_equal. apply mapM_result_ext. intros [y_ind y] _.
  destruct (py_range3 _ _ (X4 chunk_sizes)); [|done].
  f_equal. apply mapM_result_ext. intros [x_ind x] _.
  by rewrite Hsame.
Qed.

(** On an empty store the plan of the scenario does not have 4 tiles. *)
Lemma scenario_has_eight_tiles :
  ¬ ∃ plan,
      load_chunks_from_czi (scenario_file blank) scenario_tile scenario_overlap ∅
        (mkTZYX 1 1 1 1) 0 = Ok plan
      ∧ length plan = 4%nat.
Proof. intros (plan & Hplan & Hlen). vm_compute in Hplan. by injection Hplan as <-. Qed.

(** C2, amended on the number of tiles.  With extent (T=4, C=2, Z=1, Y=8,
    X=8), tile size (T=2, Z=1, Y=4, X=4) and overlap (T=1, Z=0, Y=1, X=1),
    the grid is 2 x 1 x 2 x 2 and, nothing being stored yet, the plan has
    8 tiles.  The tile at (0,0,0,0) reads rows [0,5) and columns [0,5);
    after a transform that keeps the shape and after trimming, its block is
    written to rows [0,4) and columns [0,4) exactly. *)
Theorem scenario_end_to_end (rd : Z → Z → Z → Rectangle → Z → Z → Z → Z)
    (denoise : ndarray → ndarray) (chunk_ratios : TZYX) :
  (∀ b, shape (denoise b) = shape b) →
  0 < T4 chunk_ratios ∧ 0 < Z4 chunk_ratios ∧ 0 < Y4 chunk_ratios ∧ 0 < X4 chunk_ratios →
  let input_file := scenario_file rd in
  let section := [mk_slice 0 (Some 2); mk_slice 0 None; mk_slice 0 (Some 1);
                  mk_slice 0 (Some 4); mk_slice 0 (Some 4)] in
  get_chunk_dims (get_czi_scene_shape input_file 0) scenario_tile = Ok (mkTZYX 2 1 2 2)
  ∧ ∃ plan,
      load_chunks_from_czi input_file scenario_tile scenario_overlap ∅ chunk_ratios 0
        = Ok plan
      ∧ length plan = 8%nat
      ∧ ∃ a, (mkTZYX 0 0 0 0, a) ∈ plan
          ∧ y_range a = py_range 0 5 ∧ x_range a = py_range 0 5
          ∧ (∃ block,
               run_tile denoise input_file (mkTZYX 2 1 2 2) scenario_overlap scenario_tile
                        (mkTZYX 0 0 0 0) a = Ok (section, block))
          ∧ ∀ p, section_covers (get_czi_scene_shape input_file 0) section p = true ↔
                 0 ≤ T5 p < 2 ∧ 0 ≤ C5 p < 2 ∧ 0 ≤ Z5 p < 1 ∧ 0 ≤ Y5 p < 4 ∧ 0 ≤ X5 p < 4.
Proof.
  intros Hshape (HT & HZ & HY & HX) input_file section. split; [reflexivity|].
  rewrite (load_chunks_from_czi_filter_ext _ _ _ ∅ ∅ chunk_ratios (mkTZYX 1 1 1 1))
    by (intros ind; by rewrite !check_existing_chunks_empty).
  eexists. split; [vm_compute; reflexivity|]. split; [reflexivity|].
  eexists. split; [left|]. split; [reflexivity|]. split; [reflexivity|]. split.
  - assert (∃ b, (load_chunk input_file (py_range 0 3) (py_range 0 1) (py_range 0 5)
                                (py_range 0 5) 0).2 = Ok b
                 ∧ shape b = mkTCZYX 3 2 1 5 5) as (b & Hb & Hsh)
      by (eexists; split; reflexivity).
    unfold run_tile. simpl. unfold mbind, result_bind.
    change (mk_range 0 3 1) with (py_range 0 3). change (mk_range 0 1 1) with (py_range 0 1).
    change (mk_range 0 5 1) with (py_range 0 5). rewrite Hb.
    unfold save_block_to_zarr, save_section. simpl. rewrite !Hshape, Hsh.
    eexists. reflexivity.
  - intros [t c z y x]. unfold section_covers, section. simpl.
    rewrite !andb_true_iff, !bool_decide_eq_true. tauto.
Qed.

Lemma scenario_end_to_end_witness :
  ∃ plan,
    load_chunks_from_czi (scenario_file blank) scenario_tile scenario_overlap ∅
      (mkTZYX 1 1 2 2) 0 = Ok plan
    ∧ length plan = 8%nat.
Proof.
  destruct (scenario_end_to_end blank (λ b, b) (mkTZYX 1 1 2 2)) as (_ & plan & Hplan & Hlen & _).
  - reflexivity.
  - repeat split; lia.
  - exists plan. split; assumption.
Defined.

(** C1 at a volume of 9 rows tiled by 4 with an overlap of 2.  The grid
    has three tiles along the rows.  The read window of the middle tile is
    clamped to [2,9), so it holds one row of overlap above the tile's own
    rows, yet [trim] still cuts two: the block written for it has 3 rows
    instead of 4, it is written to rows [4,7), and no write of the run
    covers row 7. *)
Theorem trimmed_tiles_leave_gap :
  ∃ g writes,
    driver int_decimal gap_file gap_parameters None = Ok g
    ∧ chunk_array g = mkTZYX 1 1 3 1
    ∧ (fst <$> data_array g) = [mkTZYX 0 0 0 0; mkTZYX 0 0 1 0; mkTZYX 0 0 2 0]
    ∧ compute (λ b, b) gap_file gap_parameters g = Ok writes
    ∧ ((λ w, nth 3 (fst w) (mk_slice 0 None)) <$> writes)
        = [mk_slice 0 (Some 4); mk_slice 4 (Some 7); mk_slice 8 (Some 9)]
    ∧ ((λ w, Y5 (shape (snd w))) <$> writes) = [4; 3; 1]
    ∧ ∀ w, w ∈ writes →
        section_covers (get_czi_scene_shape gap_file 0) w.1 (mkTCZYX 0 0 0 7 0) = false.
Proof.
  eexists _, _. split; [vm_compute; reflexivity|]. split; [reflexivity|].
  split; [reflexivity|]. split; [vm_compute; reflexivity|].
  split; [reflexivity|]. split; [reflexivity|].
  intros w Hw. repeat (apply elem_of_cons in Hw as [->|Hw]; [reflexivity|]).
  by apply elem_of_nil in Hw.
Qed.

(** * Further properties of the code *)

(** ** Grid arithmetic *)

Lemma range_len_py_range a b : range_len (py_range a b) = Z.max 0 (b - a).
Proof.
  unfold range_len, py_range; simpl. rewrite Z.div_1_r.
  repeat case_decide; lia.
Qed.

Lemma ceil_div_Ok f c n : ceil_div f c = Ok n → c ≠ 0 ∧ n = - ((- f) `div` c).
Proof. unfold ceil_div. case_decide; [done|]. by intros [= <-]. Qed.

(** The ceiling quotient by a positive tile size. *)
Lemma ceil_div_bounds f c n :
  0 < c → ceil_div f c = Ok n → (n - 1) * c < f ≤ n * c.
Proof.
  intros Hc [_ ->]%ceil_div_Ok.
  pose proof (Z.div_mod (- f) c ltac:(lia)) as Hdm.
  pose proof (Z.mod_pos_bound (- f) c Hc) as Hb. nia.
Qed.

(** The loop counter of [range(a, a + f, c)] runs over the indices below
    the ceiling quotient. *)
Lemma range_len_grid a f c n i :
  0 < c → ceil_div f c = Ok n →
  0 ≤ i < range_len (mk_range a (a + f) c) ↔ 0 ≤ i < n.
Proof.
  intros Hc Hn. pose proof (ceil_div_bounds _ _ _ Hc Hn) as Hb.
  split; intros [Hi0 Hi]; (split; [done|]).
  - apply range_len_up in Hi; [|done..]. simpl in Hi. nia.
  - apply range_len_up; [done..|]. simpl. nia.
Qed.

Lemma get_chunk_dims_Ok file_values chunk_sizes grid :
  get_chunk_dims file_values chunk_sizes = Ok grid ↔
    ceil_div (T5 file_values) (T4 chunk_sizes) = Ok (T4 grid)
    ∧ ceil_div (Z5 file_values) (Z4 chunk_sizes) = Ok (Z4 grid)
    ∧ ceil_div (Y5 file_values) (Y4 chunk_sizes) = Ok (Y4 grid)
    ∧ ceil_div (X5 file_values) (X4 chunk_sizes) = Ok (X4 grid).
Proof.
  unfold get_chunk_dims. simpl. unfold mbind, result_bind, mret, result_ret.
  destruct grid as [nT nZ nY nX]; simpl.
  destruct (ceil_div (T5 _) _), (ceil_div (Z5 _) _), (ceil_div (Y5 _) _),
    (ceil_div (X5 _) _); split; try done;
    try (intros [= -> -> -> ->]; done); try (intros (?&?&?&?); by simplify_eq).
Qed.

(** ** Trimming a clamped window *)

(** Per axis: when the overlap fits in the last tile, trimming the read
    window of a tile leaves exactly the tile's own coordinates, a whole
    tile or the remainder of the axis, and the first coordinate kept is the
    tile's start. *)
Lemma trimmed_axis_exact axis_min axis_extent tile_size overlap grid_dim idx :
  0 < tile_size → 0 ≤ overlap →
  ceil_div axis_extent tile_size = Ok grid_dim →
  0 ≤ idx < grid_dim →
  overlap_fits axis_extent tile_size overlap grid_dim →
  let w := axis_window axis_min axis_extent tile_size overlap idx in
  let s := trim_slice idx grid_dim overlap in
  slice_len s (range_len w) = Z.min tile_size (axis_extent - idx * tile_size)
  ∧ start w + (slice_bounds s (range_len w)).1 = axis_min + idx * tile_size
  ∧ 0 < Z.min tile_size (axis_extent - idx * tile_size)
  ∧ idx * tile_size + Z.min tile_size (axis_extent - idx * tile_size) ≤ axis_extent.
Proof.
  intros Hc Ho Hn Hi Hfits w s. subst w s.
  pose proof (ceil_div_bounds _ _ _ Hc Hn) as Hb. clear Hn.
  unfold overlap_fits in Hfits.
  unfold axis_window. rewrite range_len_py_range.
  unfold slice_len, slice_bounds, trim_slice, clip_index. simpl.
  set (ic := idx * tile_size) in *.
  set (nc := (grid_dim - 1) * tile_size) in *.
  assert (ic ≤ nc) by (subst ic nc; nia).
  assert (idx < grid_dim - 1 → ic + tile_size ≤ nc) by (subst ic nc; nia).
  assert (idx = grid_dim - 1 → ic = nc) by (intros ->; done).
  assert (0 < idx → tile_size ≤ ic) by (subst ic; nia).
  assert (idx = 0 → ic = 0) by (intros ->; done).
  assert (nc + tile_size = grid_dim * tile_size) as Hnc by (subst nc; lia).
  rewrite <-Hnc in Hb. clear Hnc. clearbody ic nc.
  assert (Z.min tile_size (axis_extent - ic) =
          if decide (idx < grid_dim - 1) then tile_size else axis_extent - ic) as ->
    by (case_decide; lia).
  destruct (decide (idx > 0)) as [Hpos|Hzero];
    destruct (decide (overlap > 0 ∧ idx < grid_dim - 1)) as [[Hov Hlast]|Hnot];
    simpl.
  - rewrite (decide_False (P:=overlap < 0)) by lia.
    rewrite (decide_True (P:=- overlap < 0)) by lia.
    rewrite (decide_True (P:=idx < grid_dim - 1)) by lia.
    rewrite (Z.max_l (axis_min + ic - overlap) axis_min) by lia.
    rewrite (Z.min_r (axis_min + axis_extent) (axis_min + ic + tile_size + overlap)) by lia.
    replace (axis_min + ic + tile_size + overlap - (axis_min + ic - overlap))
      with (tile_size + 2 * overlap) by lia.
    rewrite (Z.max_r 0 (tile_size + 2 * overlap)) by lia.
    rewrite (Z.max_l (- overlap + (tile_size + 2 * overlap)) 0) by lia.
    rewrite (Z.min_l overlap (tile_size + 2 * overlap)) by lia.
    split_and!; lia.
  - rewrite (decide_False (P:=overlap < 0)) by lia.
    rewrite (Z.max_l (axis_min + ic - overlap) axis_min) by lia.
    destruct (decide (idx < grid_dim - 1)).
    + assert (overlap = 0) as -> by lia.
      rewrite (Z.min_r (axis_min + axis_extent) (axis_min + ic + tile_size + 0)) by lia.
      split_and!; lia.
    + rewrite (Z.min_l (axis_min + axis_extent) (axis_min + ic + tile_size + overlap))
        by lia.
      split_and!; lia.
  - rewrite (decide_True (P:=- overlap < 0)) by lia.
    rewrite (decide_True (P:=idx < grid_dim - 1)) by lia.
    assert (ic = 0) as -> by lia.
    rewrite (Z.max_r (axis_min + 0 - overlap) axis_min) by lia.
    rewrite (Z.min_r (axis_min + axis_extent) (axis_min + 0 + tile_size + overlap)) by lia.
    split_and!; lia.
  - assert (ic = 0) as -> by lia.
    rewrite (Z.max_r (axis_min + 0 - overlap) axis_min) by lia.
    destruct (decide (idx < grid_dim - 1)).
    + assert (overlap = 0) as -> by lia.
      rewrite (Z.min_r (axis_min + axis_extent) (axis_min + 0 + tile_size + 0)) by lia.
      split_and!; lia.
    + rewrite (Z.min_l (axis_min + axis_extent) (axis_min + 0 + tile_size + overlap))
        by lia.
      split_and!; lia.
Qed.



(** ** The loader on the windows of the plan *)

Lemma range_contains_window w axis_min axis_extent :
  range_wf w → window_within w axis_min axis_extent →
  range_contains w (py_range axis_min (axis_min + axis_extent)) = true.
Proof.
  intros Hw Hin. apply range_contains_subset; [done|discriminate|].
  intros v Hv. apply elem_of_py_range. by apply Hin.
Qed.

Lemma window_within_axis_window axis_min axis_extent tile_size overlap idx :
  window_within (axis_window axis_min axis_extent tile_size overlap idx)
                axis_min axis_extent.
Proof. intros v Hv%elem_of_py_range. lia. Qed.

Lemma load_chunk_pass input_file t_range z_range y_range x_range scene :
  range_contains y_range (valid_Y input_file scene) = true →
  range_contains x_range (valid_X input_file scene) = true →
  (load_chunk input_file t_range z_range y_range x_range scene).2 =
    Ok {| shape := mkTCZYX (range_len t_range)
                     (extent (bbox_C (total_bounding_box input_file)))
                     (range_len z_range) (range_len y_range) (range_len x_range);
          item := λ ndarray_t c ndarray_z y x,
            read input_file (start t_range + ndarray_t * step t_range)
                 (start z_range + ndarray_z * step z_range) scene
                 (mkRectangle (start x_range) (start y_range)
                              (range_len x_range) (range_len y_range)) y x c |}.
Proof.
  unfold load_chunk, valid_Y, valid_X. cbn zeta. intros -> ->. reflexivity.
Qed.

(** Every load that the plan schedules passes the loader's check: it
    returns a block, whose shape is that of the four windows with all the
    channels. *)
Theorem planned_loads_succeed (input_file : czi_file) (chunk_sizes overlap : TZYX)
    (existing_chunks : gset TZYX) (chunk_ratios : TZYX) (scene : Z)
    (plan : list (TZYX * load_args)) (ind : TZYX) (a : load_args) :
  load_chunks_from_czi input_file chunk_sizes overlap existing_chunks chunk_ratios scene
    = Ok plan →
  (ind, a) ∈ plan →
  ∃ block,
    (load_chunk input_file (t_range a) (z_range a) (y_range a) (x_range a)
                (load_scene a)).2 = Ok block
    ∧ shape block = mkTCZYX (range_len (t_range a))
                      (extent (bbox_C (total_bounding_box input_file)))
                      (range_len (z_range a)) (range_len (y_range a))
                      (range_len (x_range a)).
Proof.
  intros Hplan Hin. apply (elem_of_load_chunks_from_czi _ _ _ _ _ _ _ _ _ Hplan) in Hin.
  cbn zeta in Hin. destruct Hin as (_ & _ & ->). simpl.
  eexists. split;
    [apply load_chunk_pass; apply range_contains_window;
       (discriminate || apply window_within_axis_window)
    |reflexivity].
Qed.

Lemma planned_loads_succeed_witness :
  ∃ block,
    (load_chunk (scenario_file blank) (py_range 1 4) (py_range 0 1) (py_range 3 8)
                (py_range 3 8) 0).2 = Ok block
    ∧ shape block = mkTCZYX 3 2 1 5 5.
Proof.
  refine (planned_loads_succeed (scenario_file blank) scenario_tile scenario_overlap ∅
           (mkTZYX 1 1 1 1) 0 _ (mkTZYX 1 0 1 1)
           (mk_load_args (py_range 1 4) (py_range 0 1) (py_range 3 8) (py_range 3 8) 0)
           eq_refl _).
  apply list_elem_of_In. vm_compute. tauto.
Defined.

(** ** The plan and the grid *)

Lemma elem_of_plan_grid (input_file : czi_file) (chunk_sizes overlap : TZYX)
    (existing_chunks : gset TZYX) (chunk_ratios : TZYX) (scene : Z)
    (plan : list (TZYX * load_args)) (grid : TZYX) :
  0 < T4 chunk_sizes ∧ 0 < Z4 chunk_sizes ∧ 0 < Y4 chunk_sizes ∧ 0 < X4 chunk_sizes →
  load_chunks_from_czi input_file chunk_sizes overlap existing_chunks chunk_ratios scene
    = Ok plan →
  get_chunk_dims (get_czi_scene_shape input_file scene) chunk_sizes = Ok grid →
  ∀ ind, ind ∈ plan.*1 ↔
    (0 ≤ T4 ind < T4 grid ∧ 0 ≤ Z4 ind < Z4 grid
     ∧ 0 ≤ Y4 ind < Y4 grid ∧ 0 ≤ X4 ind < X4 grid)
    ∧ check_existing_chunks ind chunk_ratios existing_chunks = false.
Proof.
  intros (HT & HZ & HY & HX) Hplan (HgT & HgZ & HgY & HgX)%get_chunk_dims_Ok ind.
  simpl in HgT, HgZ, HgY, HgX.
  pose proof (λ i, range_len_grid 0 _ _ _ i HT HgT) as ET.
  pose proof (λ i, range_len_grid 0 _ _ _ i HZ HgZ) as EZ.
  pose proof (λ i, range_len_grid (rect_y (bound_rect input_file scene)) _ _ _ i HY HgY)
    as EY.
  pose proof (λ i, range_len_grid (rect_x (bound_rect input_file scene)) _ _ _ i HX HgX)
    as EX.
  simpl in ET, EZ.
  rewrite list_elem_of_fmap. split.
  - intros ([ind' a] & -> & Hin). simpl.
    apply (elem_of_load_chunks_from_czi _ _ _ _ _ _ _ _ _ Hplan) in Hin.
    cbn zeta in Hin. rewrite ET, EZ, EY, EX in Hin. tauto.
  - intros (Hgrid & Hskip).
    eexists (ind, _). split; [done|].
    apply (elem_of_load_chunks_from_czi _ _ _ _ _ _ _ _ _ Hplan). cbn zeta.
    rewrite ET, EZ, EY, EX. split; [done|]. split; [done|reflexivity].
Qed.

(** The tiles of the plan are the grid positions, as [get_chunk_dims]
    counts them, that the resumability filter does not skip. *)
Theorem plan_indices_grid (input_file : czi_file) (chunk_sizes overlap : TZYX)
    (existing_chunks : gset TZYX) (chunk_ratios : TZYX) (scene : Z)
    (plan : list (TZYX * load_args)) (grid : TZYX) :
  0 < T4 chunk_sizes ∧ 0 < Z4 chunk_sizes ∧ 0 < Y4 chunk_sizes ∧ 0 < X4 chunk_sizes →
  load_chunks_from_czi input_file chunk_sizes overlap existing_chunks chunk_ratios scene
    = Ok plan →
  get_chunk_dims (get_czi_scene_shape input_file scene) chunk_sizes = Ok grid →
  ∀ ind, ind ∈ plan.*1 ↔
    (0 ≤ T4 ind < T4 grid ∧ 0 ≤ Z4 ind < Z4 grid
     ∧ 0 ≤ Y4 ind < Y4 grid ∧ 0 ≤ X4 ind < X4 grid)
    ∧ check_existing_chunks ind chunk_ratios existing_chunks = false.
Proof. apply elem_of_plan_grid. Qed.

Lemma plan_indices_grid_witness :
  ∃ plan,
    load_chunks_from_czi (scenario_file blank) scenario_tile scenario_overlap ∅
      (mkTZYX 1 1 1 1) 0 = Ok plan
    ∧ mkTZYX 1 0 1 1 ∈ plan.*1.
Proof.
  eexists. split; [vm_compute; reflexivity|].
  refine (proj2 (plan_indices_grid (scenario_file blank) scenario_tile scenario_overlap ∅
                   (mkTZYX 1 1 1 1) 0 _ (mkTZYX 2 1 2 2) _ eq_refl eq_refl
                   (mkTZYX 1 0 1 1)) _).
  - repeat split; reflexivity.
  - split; [simpl; lia|reflexivity].
Defined.

(** ** A tile through the pipeline *)

Lemma run_tile_nominal_aux (denoise : ndarray → ndarray) (input_file : czi_file)
    (chunk_sizes overlap : TZYX) (existing_chunks : gset TZYX) (chunk_ratios : TZYX)
    (scene : Z) (plan : list (TZYX * load_args)) (grid ind : TZYX) (a : load_args) :
  (∀ b, shape (denoise b) = shape b) →
  0 < T4 chunk_sizes ∧ 0 < Z4 chunk_sizes ∧ 0 < Y4 chunk_sizes ∧ 0 < X4 chunk_sizes →
  0 ≤ T4 overlap ∧ 0 ≤ Z4 overlap ∧ 0 ≤ Y4 overlap ∧ 0 ≤ X4 overlap →
  0 ≤ extent (bbox_C (total_bounding_box input_file)) →
  load_chunks_from_czi input_file chunk_sizes overlap existing_chunks chunk_ratios scene
    = Ok plan →
  let file_array := get_czi_scene_shape input_file scene in
  get_chunk_dims file_array chunk_sizes = Ok grid →
  overlap_fits (T5 file_array) (T4 chunk_sizes) (T4 overlap) (T4 grid)
  ∧ overlap_fits (Z5 file_array) (Z4 chunk_sizes) (Z4 overlap) (Z4 grid)
  ∧ overlap_fits (Y5 file_array) (Y4 chunk_sizes) (Y4 overlap) (Y4 grid)
  ∧ overlap_fits (X5 file_array) (X4 chunk_sizes) (X4 overlap) (X4 grid) →
  (ind, a) ∈ plan →
  ∃ raw block,
    (load_chunk input_file (t_range a) (z_range a) (y_range a) (x_range a)
                (load_scene a)).2 = Ok raw
    ∧ run_tile denoise input_file grid overlap chunk_sizes ind a =
        Ok ([nominal_slice (T5 file_array) (T4 chunk_sizes) (T4 ind);
             mk_slice 0 None;
             nominal_slice (Z5 file_array) (Z4 chunk_sizes) (Z4 ind);
             nominal_slice (Y5 file_array) (Y4 chunk_sizes) (Y4 ind);
             nominal_slice (X5 file_array) (X4 chunk_sizes) (X4 ind)], block)
    ∧ ∀ t c z y x, item block t c z y x =
        item (denoise raw)
             (T4 ind * T4 chunk_sizes - start (t_range a) + t) c
             (Z4 ind * Z4 chunk_sizes - start (z_range a) + z)
             (rect_y (bound_rect input_file scene) + Y4 ind * Y4 chunk_sizes
              - start (y_range a) + y)
             (rect_x (bound_rect input_file scene) + X4 ind * X4 chunk_sizes
              - start (x_range a) + x).
Proof.
  intros Hshape (HT & HZ & HY & HX) (HoT & HoZ & HoY & HoX) HC Hplan file_array
    Hgrid (HfT & HfZ & HfY & HfX) Hin.
  pose proof (proj1 (elem_of_plan_grid _ _ _ _ _ _ _ _
    (conj HT (conj HZ (conj HY HX))) Hplan Hgrid ind)
    ltac:(apply list_elem_of_fmap; by exists (ind, a))) as [(HiT & HiZ & HiY & HiX) _].
  apply (elem_of_load_chunks_from_czi _ _ _ _ _ _ _ _ _ Hplan) in Hin.
  cbn zeta in Hin. destruct Hin as (_ & _ & ->).
  apply get_chunk_dims_Ok in Hgrid as (HgT & HgZ & HgY & HgX).
  subst file_array. simpl in *.
  pose proof (trimmed_axis_exact 0 _ _ _ _ _ HT HoT HgT HiT HfT) as (ET & ST & _).
  pose proof (trimmed_axis_exact 0 _ _ _ _ _ HZ HoZ HgZ HiZ HfZ) as (EZ & SZ & _).
  pose proof (trimmed_axis_exact (rect_y (bound_rect input_file scene))
                _ _ _ _ _ HY HoY HgY HiY HfY) as (EY & SY & _).
  pose proof (trimmed_axis_exact (rect_x (bound_rect input_file scene))
                _ _ _ _ _ HX HoX HgX HiX HfX) as (EX & SX & _).
  cbn zeta in ET, ST, EZ, SZ, EY, SY, EX, SX.
  eexists _, _. split.
  { apply load_chunk_pass; apply range_contains_window;
      (discriminate || apply window_within_axis_window). }
  unfold run_tile. cbn [t_range z_range y_range x_range load_scene].
  rewrite load_chunk_pass
    by (apply range_contains_window; (discriminate || apply window_within_axis_window)).
  unfold mbind, result_bind, trim. rewrite trim_axes_slices.
  unfold ndarray_getitem; simpl.
  unfold save_block_to_zarr, save_section; simpl.
  rewrite !Hshape; simpl.
  rewrite ET, EZ, EY, EX.
  split; [reflexivity|].
  intros t c z y x. simpl. simpl in ST, SZ, SY, SX.
  f_equal; try lia.
  unfold clip_index. destruct (decide (0 < 0)); lia.
Qed.

(** When the overlap fits in the last tile of every axis, a tile of the
    plan that is loaded, transformed without change of shape, trimmed and
    saved is written to its own region of the output: on each tiled axis
    from [tile_index * tile_size] over a whole tile, or over what is left of
    the axis, on the channel axis everywhere.  The block written starts at
    the tile's first coordinate within the loaded window. *)
Theorem run_tile_writes_nominal (denoise : ndarray → ndarray) (input_file : czi_file)
    (chunk_sizes overlap : TZYX) (existing_chunks : gset TZYX) (chunk_ratios : TZYX)
    (scene : Z) (plan : list (TZYX * load_args)) (grid ind : TZYX) (a : load_args) :
  (∀ b, shape (denoise b) = shape b) →
  0 < T4 chunk_sizes ∧ 0 < Z4 chunk_sizes ∧ 0 < Y4 chunk_sizes ∧ 0 < X4 chunk_sizes →
  0 ≤ T4 overlap ∧ 0 ≤ Z4 overlap ∧ 0 ≤ Y4 overlap ∧ 0 ≤ X4 overlap →
  0 ≤ extent (bbox_C (total_bounding_box input_file)) →
  load_chunks_from_czi input_file chunk_sizes overlap existing_chunks chunk_ratios scene
    = Ok plan →
  let file_array := get_czi_scene_shape input_file scene in
  get_chunk_dims file_array chunk_sizes = Ok grid →
  overlap_fits (T5 file_array) (T4 chunk_sizes) (T4 overlap) (T4 grid)
  ∧ overlap_fits (Z5 file_array) (Z4 chunk_sizes) (Z4 overlap) (Z4 grid)
  ∧ overlap_fits (Y5 file_array) (Y4 chunk_sizes) (Y4 overlap) (Y4 grid)
  ∧ overlap_fits (X5 file_array) (X4 chunk_sizes) (X4 overlap) (X4 grid) →
  (ind, a) ∈ plan →
  ∃ raw block,
    (load_chunk input_file (t_range a) (z_range a) (y_range a) (x_range a)
                (load_scene a)).2 = Ok raw
    ∧ run_tile denoise input_file grid overlap chunk_sizes ind a =
        Ok ([nominal_slice (T5 file_array) (T4 chunk_sizes) (T4 ind);
             mk_slice 0 None;
             nominal_slice (Z5 file_array) (Z4 chunk_sizes) (Z4 ind);
             nominal_slice (Y5 file_array) (Y4 chunk_sizes) (Y4 ind);
             nominal_slice (X5 file_array) (X4 chunk_sizes) (X4 ind)], block)
    ∧ ∀ t c z y x, item block t c z y x =
        item (denoise raw)
             (T4 ind * T4 chunk_sizes - start (t_range a) + t) c
             (Z4 ind * Z4 chunk_sizes - start (z_range a) + z)
             (rect_y (bound_rect input_file scene) + Y4 ind * Y4 chunk_sizes
              - start (y_range a) + y)
             (rect_x (bound_rect input_file scene) + X4 ind * X4 chunk_sizes
              - start (x_range a) + x).
Proof.
  intros Hshape Hsizes Hoverlap HC Hplan file_array Hgrid Hfits Hin.
  by apply (run_tile_nominal_aux _ _ _ _ existing_chunks chunk_ratios scene plan).
Qed.

Lemma run_tile_writes_nominal_witness :
  ∃ raw block,
    (load_chunk (scenario_file blank) (py_range 1 4) (py_range 0 1) (py_range 3 8)
                (py_range 3 8) 0).2 = Ok raw
    ∧ run_tile (λ b, b) (scenario_file blank) (mkTZYX 2 1 2 2) scenario_overlap
               scenario_tile (mkTZYX 1 0 1 1)
               (mk_load_args (py_range 1 4) (py_range 0 1) (py_range 3 8) (py_range 3 8) 0)
      = Ok ([mk_slice 2 (Some 4); mk_slice 0 None; mk_slice 0 (Some 1);
             mk_slice 4 (Some 8); mk_slice 4 (Some 8)], block).
Proof.
  destruct (run_tile_writes_nominal (λ b, b) (scenario_file blank) scenario_tile
              scenario_overlap ∅ (mkTZYX 1 1 1 1) 0
              ltac:(let p := eval vm_compute in
                      (match load_chunks_from_czi (scenario_file blank) scenario_tile
                               scenario_overlap ∅ (mkTZYX 1 1 1 1) 0 with
                       | Ok p => p | Raise _ => [] end) in exact p)
              (mkTZYX 2 1 2 2) (mkTZYX 1 0 1 1)
              (mk_load_args (py_range 1 4) (py_range 0 1) (py_range 3 8) (py_range 3 8) 0))
    as (raw & block & Hraw & Hrun & _).
  - reflexivity.
  - repeat split; simpl; lia.
  - repeat split; simpl; lia.
  - simpl. unfold extent. simpl. lia.
  - reflexivity.
  - reflexivity.
  - unfold overlap_fits. repeat split; intros _; vm_compute; discriminate.
  - apply list_elem_of_In. vm_compute. tauto.
  - exists raw, block. split; assumption.
Defined.

(** ** The regions of the tiles in the output *)

(** The regions of the tiles of one axis divide it: the coordinate [x] of an
    axis of extent [axis_extent] lies in the region of the tile
    [x / tile_size] of the grid and of no other. *)
Theorem nominal_slices_partition (axis_extent tile_size grid_dim x idx : Z) :
  0 < tile_size →
  ceil_div axis_extent tile_size = Ok grid_dim →
  0 ≤ x < axis_extent →
  (0 ≤ idx < grid_dim
   ∧ (slice_bounds (nominal_slice axis_extent tile_size idx) axis_extent).1 ≤ x
       < (slice_bounds (nominal_slice axis_extent tile_size idx) axis_extent).2)
  ↔ idx = x `div` tile_size.
Proof.
  intros Hc Hn Hx. pose proof (ceil_div_bounds _ _ _ Hc Hn) as Hb.
  pose proof (Z.div_mod x tile_size ltac:(lia)) as Hdm.
  pose proof (Z.mod_pos_bound x tile_size Hc) as Hm.
  unfold slice_bounds, nominal_slice, clip_index. simpl. split.
  - intros [Hi Hin].
    assert (idx * tile_size ≤ (grid_dim - 1) * tile_size) by nia.
    assert (0 ≤ idx * tile_size) by nia.
    repeat case_decide; try lia.
    apply (Z.div_unique_pos x tile_size idx (x - idx * tile_size)); lia.
  - intros ->. set (q := x `div` tile_size) in *.
    assert (0 ≤ q) by (subst q; apply Z.div_pos; lia).
    assert (0 ≤ q * tile_size) by nia.
    split; [split; [done|nia]|].
    repeat case_decide; lia.
Qed.

Lemma nominal_slices_partition_witness :
  (0 ≤ 1 < 3
   ∧ (slice_bounds (nominal_slice 9 4 1) 9).1 ≤ 7 < (slice_bounds (nominal_slice 9 4 1) 9).2)
  ↔ 1 = 7 `div` 4.
Proof.
  apply (nominal_slices_partition 9 4 3 7 1); [lia|reflexivity|lia].
Defined.

(** ** The containment check as inclusion *)

(** [range_contains] answers true exactly when every value of the inner
    range is a value of the outer range. *)
Theorem range_contains_decides_inclusion (inner outer : range) :
  range_wf inner → range_wf outer →
  range_contains inner outer = true ↔ range_elems inner ⊆ range_elems outer.
Proof. apply range_contains_subset. Qed.

Lemma range_contains_decides_inclusion_witness :
  range_contains (mk_range 10 0 (-2)) (mk_range 0 11 1) = true
  ↔ range_elems (mk_range 10 0 (-2)) ⊆ range_elems (mk_range 0 11 1).
Proof.
  apply (range_contains_decides_inclusion (mk_range 10 0 (-2)) (mk_range 0 11 1));
    discriminate.
Defined.

(** ** What [trim] and the writer do to a block *)

Lemma clip_index_bounds i n : 0 ≤ n → 0 ≤ clip_index i n ≤ n.
Proof. intros Hn. unfold clip_index. case_decide; lia. Qed.

Lemma slice_len_bounds s n : 0 ≤ n → 0 ≤ slice_len s n ≤ n.
Proof.
  intros Hn. unfold slice_len, slice_bounds. simpl.
  pose proof (clip_index_bounds (slice_start s) n Hn).
  destruct (slice_stop s) as [j|]; [pose proof (clip_index_bounds j n Hn)|]; lia.
Qed.

(** [trim] never raises and never enlarges: whatever the tile index, the
    grid and the overlaps, every extent of the result lies between 0 and
    the extent of the block, and the channel extent is that of the block. *)
Theorem trim_never_grows (block : ndarray) (ch_index chunk_array overlaps : TZYX) :
  shape_wf (shape block) →
  ∃ trimmed, trim block ch_index chunk_array overlaps = Ok trimmed
    ∧ 0 ≤ T5 (shape trimmed) ≤ T5 (shape block)
    ∧ C5 (shape trimmed) = C5 (shape block)
    ∧ 0 ≤ Z5 (shape trimmed) ≤ Z5 (shape block)
    ∧ 0 ≤ Y5 (shape trimmed) ≤ Y5 (shape block)
    ∧ 0 ≤ X5 (shape trimmed) ≤ X5 (shape block).
Proof.
  intros (HT & HC & HZ & HY & HX). unfold trim. rewrite trim_axes_slices.
  eexists. split; [reflexivity|]. cbn [shape T5 C5 Z5 Y5 X5].
  split; [by apply slice_len_bounds|].
  split; [unfold slice_len; rewrite slice_bounds_whole by done; simpl; lia|].
  split; [by apply slice_len_bounds|].
  split; by apply slice_len_bounds.
Qed.

Lemma trim_never_grows_witness :
  ∃ trimmed,
    trim (mk_ndarray (mkTCZYX 3 2 1 5 5) (λ _ _ _ _ _, 0))
         (mkTZYX 1 0 1 1) (mkTZYX 2 1 2 2) (mkTZYX 7 7 7 7) = Ok trimmed
    ∧ 0 ≤ T5 (shape trimmed) ≤ 3.
Proof.
  destruct (trim_never_grows (mk_ndarray (mkTCZYX 3 2 1 5 5) (λ _ _ _ _ _, 0))
              (mkTZYX 1 0 1 1) (mkTZYX 2 1 2 2) (mkTZYX 7 7 7 7))
    as (trimmed & Htrim & HT & _).
  - repeat split; simpl; lia.
  - exists trimmed. split; assumption.
Defined.

(** The region [save_block_to_zarr] assigns to is the box of the block's
    shape placed at [chunk_index * chunk_sizes], with every channel, when
    that box lies inside the output array. *)
Theorem save_section_region (block : ndarray) (chunk_index chunk_sizes : TZYX)
    (sh p : TCZYX) :
  shape_wf (shape block) → 0 ≤ C5 sh →
  0 ≤ T4 chunk_index * T4 chunk_sizes ∧ 0 ≤ Z4 chunk_index * Z4 chunk_sizes
  ∧ 0 ≤ Y4 chunk_index * Y4 chunk_sizes ∧ 0 ≤ X4 chunk_index * X4 chunk_sizes →
  T4 chunk_index * T4 chunk_sizes + T5 (shape block) ≤ T5 sh
  ∧ Z4 chunk_index * Z4 chunk_sizes + Z5 (shape block) ≤ Z5 sh
  ∧ Y4 chunk_index * Y4 chunk_sizes + Y5 (shape block) ≤ Y5 sh
  ∧ X4 chunk_index * X4 chunk_sizes + X5 (shape block) ≤ X5 sh →
  section_covers sh (save_block_to_zarr block chunk_index chunk_sizes).1 p = true ↔
    T4 chunk_index * T4 chunk_sizes ≤ T5 p
      < T4 chunk_index * T4 chunk_sizes + T5 (shape block)
    ∧ 0 ≤ C5 p < C5 sh
    ∧ Z4 chunk_index * Z4 chunk_sizes ≤ Z5 p
      < Z4 chunk_index * Z4 chunk_sizes + Z5 (shape block)
    ∧ Y4 chunk_index * Y4 chunk_sizes ≤ Y5 p
      < Y4 chunk_index * Y4 chunk_sizes + Y5 (shape block)
    ∧ X4 chunk_index * X4 chunk_sizes ≤ X5 p
      < X4 chunk_index * X4 chunk_sizes + X5 (shape block).
Proof.
  intros (HT & HC & HZ & HY & HX) HCs (HoT & HoZ & HoY & HoX) (HbT & HbZ & HbY & HbX).
  unfold save_block_to_zarr, save_section, section_covers, slice_bounds, clip_index.
  simpl.
  set (oT := T4 chunk_index * T4 chunk_sizes) in *.
  set (oZ := Z4 chunk_index * Z4 chunk_sizes) in *.
  set (oY := Y4 chunk_index * Y4 chunk_sizes) in *.
  set (oX := X4 chunk_index * X4 chunk_sizes) in *.
  rewrite !andb_true_iff, !bool_decide_eq_true.
  repeat (rewrite decide_False by lia).
  rewrite !Z.min_l by lia. tauto.
Qed.

Lemma save_section_region_witness :
  section_covers (mkTCZYX 4 2 1 8 8)
    (save_block_to_zarr (mk_ndarray (mkTCZYX 2 2 1 4 4) (λ _ _ _ _ _, 0))
       (mkTZYX 1 0 1 1) scenario_tile).1 (mkTCZYX 3 1 0 7 4) = true
  ↔ 1 * 2 ≤ 3 < 1 * 2 + 2 ∧ 0 ≤ 1 < 2 ∧ 0 * 1 ≤ 0 < 0 * 1 + 1
    ∧ 1 * 4 ≤ 7 < 1 * 4 + 4 ∧ 1 * 4 ≤ 4 < 1 * 4 + 4.
Proof.
  apply (save_section_region (mk_ndarray (mkTCZYX 2 2 1 4 4) (λ _ _ _ _ _, 0))
           (mkTZYX 1 0 1 1) scenario_tile (mkTCZYX 4 2 1 8 8) (mkTCZYX 3 1 0 7 4));
    repeat split; simpl; lia.
Defined.

(** ** Start-up: chunk sizes, ratios and the snapshot *)

(** The start-up check accepts exactly the chunk sizes of a store that, on
    each of the four tiled axes, are not zero, are no larger than the tile
    size and divide it.  The channel axis is not looked at. *)
Theorem chunk_sizes_accepted_iff (output_zarr_chunks : TCZYX) (chunk_sizes : TZYX) :
  check_chunk_sizes output_zarr_chunks chunk_sizes = Ok () ↔
    chunks_fit output_zarr_chunks chunk_sizes
    ∧ T5 output_zarr_chunks ≠ 0 ∧ Z5 output_zarr_chunks ≠ 0
    ∧ Y5 output_zarr_chunks ≠ 0 ∧ X5 output_zarr_chunks ≠ 0.
Proof. apply check_chunk_sizes_Ok. Qed.

Lemma chunk_ratio_exact d f :
  0 < f → chunk_fits f d → d `div` f * f = d ∧ 1 ≤ d `div` f.
Proof.
  intros Hf [Hle [k ->]]. rewrite Z.div_mul by lia. split; [done|nia].
Qed.



(** A tile size of zero on any axis stops the driver at once:
    [get_chunk_dims] raises [ZeroDivisionError], before the store is opened
    or anything else is checked. *)
Theorem zero_chunk_size_stops_driver (int : string → result Z) (input_file : czi_file)
    (p : parameters) (found : option zarr_array) :
  T4 (chunk_sizes p) = 0 ∨ Z4 (chunk_sizes p) = 0
  ∨ Y4 (chunk_sizes p) = 0 ∨ X4 (chunk_sizes p) = 0 →
  get_chunk_dims (get_czi_scene_shape input_file (scene p)) (chunk_sizes p)
    = Raise ZeroDivisionError
  ∧ driver int input_file p found = Raise ZeroDivisionError.
Proof.
  intros Hzero.
  assert (get_chunk_dims (get_czi_scene_shape input_file (scene p)) (chunk_sizes p)
          = Raise ZeroDivisionError) as Hdims.
  { unfold get_chunk_dims, ceil_div. simpl.
    destruct (decide (T4 (chunk_sizes p) = 0)); [done|].
    destruct (decide (Z4 (chunk_sizes p) = 0)); [done|].
    destruct (decide (Y4 (chunk_sizes p) = 0)); [done|].
    destruct (decide (X4 (chunk_sizes p) = 0)); [done|]. lia. }
  split; [done|]. unfold driver. by rewrite Hdims.
Qed.

Lemma zero_chunk_size_stops_driver_witness :
  driver int_decimal (scenario_file blank)
    (mk_parameters 0 (mkTZYX 2 1 0 4) scenario_overlap (mkTCZYX 1 1 1 4 4)) None
  = Raise ZeroDivisionError.
Proof.
  apply (zero_chunk_size_stops_driver int_decimal (scenario_file blank)
    (mk_parameters 0 (mkTZYX 2 1 0 4) scenario_overlap (mkTCZYX 1 1 1 4 4)) None).
  right. right. left. reflexivity.
Defined.

(** ** Keys of the store *)

Lemma mapM_is_Ok {A B} (f : A → result B) (l : list A) :
  (∃ ys, mapM f l = Ok ys) ↔ ∀ x, x ∈ l → ∃ y, f x = Ok y.
Proof.
  split.
  - intros [ys Hm%mapM_Ok] x Hx.
    destruct (proj1 (list_elem_of_lookup _ _) Hx) as [i Hi].
    destruct (Forall2_lookup_l _ _ _ _ _ Hm Hi) as (y & _ & Hy). eauto.
  - induction l as [|x l IH]; intros Hall; [by exists []|].
    destruct (Hall x ltac:(left)) as [y Hy].
    destruct IH as [ys Hys]; [intros x' Hx'; apply Hall; by right|].
    exists (y :: ys). simpl. by rewrite Hy, Hys.
Qed.

Lemma parse_key_Ok int k c :
  parse_key int k = Ok c ↔
    ∃ t' c' z' y' x', split_on "." k = [t'; c'; z'; y'; x']
      ∧ int t' = Ok (T5 c) ∧ int c' = Ok (C5 c) ∧ int z' = Ok (Z5 c)
      ∧ int y' = Ok (Y5 c) ∧ int x' = Ok (X5 c).
Proof.
  unfold parse_key. unfold mbind at 1, result_bind at 1. split.
  - destruct (mapM int _) as [parts|] eqn:Hm; [|done].
    destruct parts as [|t [|c1 [|z [|y [|x [|? ?]]]]]]; try done.
    intros [= <-]. apply mapM_Ok in Hm.
    apply Forall2_length in Hm as Hlen.
    destruct (split_on "." k) as [|t' [|c' [|z' [|y' [|x' [|? ?]]]]]]; try done.
    repeat match goal with H : Forall2 _ (_ :: _) _ |- _ => 
      apply Forall2_cons_1 in H as [? H] end.
    by exists t', c', z', y', x'.
  - intros (t' & c' & z' & y' & x' & -> & Ht & Hc & Hz & Hy & Hx). simpl.
    unfold mbind, result_bind, mret, result_ret.
    rewrite Ht, Hc, Hz, Hy, Hx. by destruct c.
Qed.

(** The snapshot of existing chunks is built exactly when every key of the
    store other than ".zarray" splits at its dots into five parts that
    [int] accepts; any other key makes it raise. *)
Theorem existing_chunks_of_Ok_iff (int : string → result Z) (keys : list string) :
  (∃ E, existing_chunks_of int keys = Ok E) ↔
    ∀ k, k ∈ keys → k ≠ ".zarray" →
      ∃ t' c' z' y' x', split_on "." k = [t'; c'; z'; y'; x']
        ∧ is_Ok (int t') = true ∧ is_Ok (int c') = true ∧ is_Ok (int z') = true
        ∧ is_Ok (int y') = true ∧ is_Ok (int x') = true.
Proof.
  unfold existing_chunks_of. split.
  - intros [E HE] k Hk Hne.
    unfold fmap at 1, result_fmap at 1 in HE.
    destruct (mapM _ _) as [ps|] eqn:Hm; [|done].
    assert (∃ ys, mapM (λ k, TCZYX_TZYX <$> parse_key int k)
                       (filter (λ k, k ≠ ".zarray") keys) = Ok ys) as Hex by eauto.
    rewrite mapM_is_Ok in Hex.
    destruct (Hex k) as [q Hq]; [by apply list_elem_of_filter|].
    destruct (parse_key int k) as [c|] eqn:Hc; [|done].
    apply parse_key_Ok in Hc as (t' & c' & z' & y' & x' & Hs & Ht & Hc & Hz & Hy & Hx).
    exists t', c', z', y', x'. by rewrite Hs, Ht, Hc, Hz, Hy, Hx.
  - intros Hall.
    assert (∃ ys, mapM (λ k, TCZYX_TZYX <$> parse_key int k)
                       (filter (λ k, k ≠ ".zarray") keys) = Ok ys) as [ys Hys].
    { apply mapM_is_Ok. intros k [Hne Hk]%list_elem_of_filter.
      destruct (Hall k Hk Hne) as (t' & c' & z' & y' & x' & Hs & Ht & Hc & Hz & Hy & Hx).
      destruct (int t') as [vt|] eqn:Et; [|done].
      destruct (int c') as [vc|] eqn:Ec; [|done].
      destruct (int z') as [vz|] eqn:Ez; [|done].
      destruct (int y') as [vy|] eqn:Ey; [|done].
      destruct (int x') as [vx|] eqn:Ex; [|done].
      assert (parse_key int k = Ok (mkTCZYX vt vc vz vy vx)) as ->.
      { apply parse_key_Ok. by exists t', c', z', y', x'. }
      eauto. }
    rewrite Hys. eauto.
Qed.

(** ** What a run schedules *)

Lemma forallb_false {A} (f : A → bool) (l : list A) :
  forallb f l = false ↔ ∃ x, x ∈ l ∧ f x = false.
Proof.
  induction l as [|x l IH]; simpl.
  - split; [done|]. by intros (x & Hx%elem_of_nil & _).
  - rewrite andb_false_iff, IH. split.
    + intros [Hx|(y & Hy & Hfy)]; [exists x; split; [left|done]|].
      exists y. split; [by right|done].
    + intros (y & [->|Hy]%elem_of_cons & Hfy); [by left|]. right. eauto.
Qed.

Lemma check_existing_chunks_false da_chunk chunk_ratios existing_chunks :
  check_existing_chunks da_chunk chunk_ratios existing_chunks = false ↔
    ∃ q, storage_footprint da_chunk chunk_ratios q ∧ q ∉ existing_chunks.
Proof.
  unfold check_existing_chunks. rewrite forallb_false. split.
  - intros (q & Hq%elem_of_product4 & Hmiss%bool_decide_eq_false).
    rewrite !elem_of_py_range in Hq. by exists q.
  - intros (q & (Ht & Hz & Hy & Hx) & Hmiss). exists q. split.
    + apply elem_of_product4. by rewrite !elem_of_py_range.
    + by apply bool_decide_eq_false.
Qed.

(** Resuming.  With [scene = 0] and positive tile sizes, the tiles the
    driver schedules are the grid positions for which some storage chunk of
    the tile's footprint has no key in the store, for any channel. *)
Theorem driver_schedules_unfinished (int : string → result Z) (input_file : czi_file)
    (p : parameters) (found : option zarr_array) (g : task_graph) :
  scene p = 0 →
  0 < T4 (chunk_sizes p) ∧ 0 < Z4 (chunk_sizes p)
  ∧ 0 < Y4 (chunk_sizes p) ∧ 0 < X4 (chunk_sizes p) →
  driver int input_file p found = Ok g →
  let output_zarr :=
    open_or_create found (get_czi_scene_shape input_file 0) (output_chunks p) in
  get_chunk_dims (get_czi_scene_shape input_file 0) (chunk_sizes p) = Ok (chunk_array g)
  ∧ ∃ ratios, chunk_ratios_of (chunk_sizes p) (output_chunks p) = Ok ratios
      ∧ ∀ ind, ind ∈ (data_array g).*1 ↔
          (0 ≤ T4 ind < T4 (chunk_array g) ∧ 0 ≤ Z4 ind < Z4 (chunk_array g)
           ∧ 0 ≤ Y4 ind < Y4 (chunk_array g) ∧ 0 ≤ X4 ind < X4 (chunk_array g))
          ∧ ∃ q, storage_footprint ind ratios q
                 ∧ ¬ key_for int (zarr_keys output_zarr) q.
Proof.
  intros Hscene Hpos Hdriver output_zarr. unfold driver in Hdriver.
  rewrite Hscene in Hdriver. fold output_zarr in Hdriver.
  unfold mbind, result_bind in Hdriver.
  destruct (get_chunk_dims _ _) as [grid|] eqn:Hgrid; [|done].
  destruct (check_chunk_sizes _ _) as [[]|]; [|done].
  destruct (existing_chunks_of _ _) as [E|] eqn:HE; [|done].
  destruct (chunk_ratios_of _ _) as [ratios|] eqn:Hratios; [|done].
  destruct (load_chunks_from_czi _ _ _ _ _ _) as [plan|] eqn:Hplan; [|done].
  injection Hdriver as <-. simpl. split; [done|].
  exists ratios. split; [done|]. intros ind.
  rewrite (elem_of_plan_grid _ _ _ _ _ _ _ _ Hpos Hplan Hgrid ind).
  rewrite check_existing_chunks_false.
  pose proof (elem_of_existing_chunks_of _ _ _ HE) as Hin.
  split; intros [Hgrid' (q & Hq & Hmiss)]; (split; [done|]); exists q;
    (split; [done|]); intros Hkey; apply Hmiss; by apply Hin.
Qed.

Lemma driver_schedules_unfinished_witness :
  ∃ g, driver int_decimal gap_file gap_parameters
         (Some (mk_zarr_array (mkTCZYX 1 1 1 9 4) (mkTCZYX 1 1 1 4 4)
                  [".zarray"; "0.0.0.0.0"; "0.0.0.2.0"])) = Ok g
    ∧ mkTZYX 0 0 1 0 ∈ (data_array g).*1.
Proof.
  eexists. split; [vm_compute; reflexivity|].
  match goal with |- _ ∈ (data_array ?g).*1 =>
    destruct (driver_schedules_unfinished int_decimal gap_file gap_parameters
      (Some (mk_zarr_array (mkTCZYX 1 1 1 9 4) (mkTCZYX 1 1 1 4 4)
               [".zarray"; "0.0.0.0.0"; "0.0.0.2.0"])) g)
      as (_ & ratios & Hratios & Hsched)
  end.
  - reflexivity.
  - repeat split; simpl; lia.
  - vm_compute. reflexivity.
  - apply Hsched. vm_compute in Hratios. injection Hratios as <-.
    split; [repeat split; vm_compute; congruence|].
    exists (mkTZYX 0 0 1 0). split; [repeat split; vm_compute; congruence|].
    intros (k & c & Hk & Hne & Hparse & Hc).
    repeat (apply elem_of_cons in Hk as [->|Hk]; [try done; vm_compute in Hparse;
      injection Hparse as <-; discriminate|]).
    by apply elem_of_nil in Hk.
Defined.

(** A first run.  When no output array is found and the output chunk sizes
    are positive, a driver that gets through its checks schedules every
    position of the grid. *)
Theorem fresh_run_schedules_every_tile (int : string → result Z) (input_file : czi_file)
    (p : parameters) (g : task_graph) :
  scene p = 0 →
  0 < T5 (output_chunks p) ∧ 0 < Z5 (output_chunks p)
  ∧ 0 < Y5 (output_chunks p) ∧ 0 < X5 (output_chunks p) →
  driver int input_file p None = Ok g →
  ∀ ind, ind ∈ (data_array g).*1 ↔
    0 ≤ T4 ind < T4 (chunk_array g) ∧ 0 ≤ Z4 ind < Z4 (chunk_array g)
    ∧ 0 ≤ Y4 ind < Y4 (chunk_array g) ∧ 0 ≤ X4 ind < X4 (chunk_array g).
Proof.
  intros Hscene (HT & HZ & HY & HX) Hdriver ind. unfold driver in Hdriver.
  rewrite Hscene in Hdriver. unfold mbind, result_bind in Hdriver.
  destruct (get_chunk_dims _ _) as [grid|] eqn:Hgrid; [|done].
  simpl in Hdriver.
  destruct (check_chunk_sizes _ _) as [[]|] eqn:Hcheck; [|done].
  change (existing_chunks_of int [".zarray"]) with (Ok (∅ : gset TZYX)) in Hdriver.
  pose proof Hcheck as ((FT & FZ & FY & FX) & _)%check_chunk_sizes_Ok.
  destruct (chunk_ratio_exact _ _ HT FT) as [_ HrT].
  destruct (chunk_ratio_exact _ _ HZ FZ) as [_ HrZ].
  destruct (chunk_ratio_exact _ _ HY FY) as [_ HrY].
  destruct (chunk_ratio_exact _ _ HX FX) as [_ HrX].
  unfold chunk_ratios_of, py_floordiv in Hdriver. simpl in Hdriver.
  rewrite !decide_False in Hdriver by lia. simpl in Hdriver.
  destruct (load_chunks_from_czi _ _ _ _ _ _) as [plan|] eqn:Hplan; [|done].
  injection Hdriver as <-. simpl.
  assert (0 < T4 (chunk_sizes p) ∧ 0 < Z4 (chunk_sizes p)
          ∧ 0 < Y4 (chunk_sizes p) ∧ 0 < X4 (chunk_sizes p)) as Hpos.
  { destruct FT, FZ, FY, FX. lia. }
  rewrite (elem_of_plan_grid _ _ _ _ _ _ _ _ Hpos Hplan Hgrid ind).
  rewrite check_existing_chunks_empty by (simpl; lia). tauto.
Qed.

Lemma fresh_run_schedules_every_tile_witness :
  ∃ g, driver int_decimal gap_file gap_parameters None = Ok g
    ∧ mkTZYX 0 0 2 0 ∈ (data_array g).*1.
Proof.
  eexists. split; [vm_compute; reflexivity|].
  match goal with |- _ ∈ (data_array ?g).*1 =>
    apply (fresh_run_schedules_every_tile int_decimal gap_file gap_parameters g)
  end.
  - reflexivity.
  - repeat split; vm_compute; congruence.
  - vm_compute. reflexivity.
  - repeat split; vm_compute; congruence.
Defined.

(** ** The plan as a dictionary *)

Lemma NoDup_join_tagged {A B K} (key : B → K) (tag : K → A) (Q : B → Prop)
    (body : A * Z → result (list B)) (ivs : list (A * Z)) (yss : list (list B)) :
  NoDup ivs.*1 →
  (∀ i v ys, body (i, v) = Ok ys →
     NoDup (key <$> ys) ∧ ∀ y, y ∈ ys → tag (key y) = i ∧ Q y) →
  Forall2 (λ iv ys, body iv = Ok ys) ivs yss →
  NoDup (key <$> mjoin yss)
  ∧ ∀ y, y ∈ mjoin yss → tag (key y) ∈ ivs.*1 ∧ Q y.
Proof.
  intros Hnd Hbody Hall. induction Hall as [|[i v] ys ivs yss Hy Hall IH]; simpl.
  - split; [constructor|]. by intros y Hy%elem_of_nil.
  - apply NoDup_cons in Hnd as [Hi Hnd]. destruct (IH Hnd) as [IHnd IHin].
    destruct (Hbody _ _ _ Hy) as [Hys Htag].
    split.
    + rewrite fmap_app. apply NoDup_app. split; [done|]. split; [|done].
      intros k (y & -> & Hyin)%list_elem_of_fmap (y' & Hk & Hy')%list_elem_of_fmap.
      apply Hi. destruct (Htag _ Hyin) as [<- _].
      rewrite Hk. by apply IHin.
    + intros y [Hyin|Hyin]%elem_of_app.
      * destruct (Htag _ Hyin) as [-> HQ]. split; [left|done].
      * destruct (IHin _ Hyin). split; [by right|done].
Qed.

Lemma range_loop_NoDup {B K} (key : B → K) (tag : K → Z) (Q : B → Prop) (a b c : Z)
    (body : Z * Z → result (list B)) (r : list B) :
  (rng ← py_range3 a b c; mjoin <$> mapM body (enumerate_range rng)) = Ok r →
  (∀ i v ys, body (i, v) = Ok ys →
     NoDup (key <$> ys) ∧ ∀ y, y ∈ ys → tag (key y) = i ∧ Q y) →
  NoDup (key <$> r) ∧ ∀ y, y ∈ r → Q y.
Proof.
  unfold mbind at 1, result_bind at 1.
  destruct (py_range3 a b c) as [rng|]; [|done].
  unfold fmap at 1, result_fmap at 1.
  destruct (mapM body _) as [yss|] eqn:Hm; [|done].
  intros [= <-] Hbody. apply mapM_Ok in Hm.
  assert (NoDup (enumerate_range rng).*1) as Hidx.
  { rewrite enumerate_range_fmap, <-list_fmap_compose.
    rewrite (list_fmap_ext _ id (seqZ 0 (range_len rng))), list_fmap_id by done.
    apply NoDup_seqZ. }
  destruct (NoDup_join_tagged key tag Q body _ _ Hidx Hbody Hm) as [Hnd Hin].
  split; [done|]. intros y Hy. by apply Hin.
Qed.

(** No grid position is scheduled twice: the keys of the plan are distinct. *)
Theorem load_chunks_from_czi_keys_distinct (input_file : czi_file)
    (chunk_sizes overlap : TZYX) (existing_chunks : gset TZYX) (chunk_ratios : TZYX)
    (scene : Z) (plan : list (TZYX * load_args)) :
  load_chunks_from_czi input_file chunk_sizes overlap existing_chunks chunk_ratios scene
    = Ok plan →
  NoDup plan.*1.
Proof.
  unfold load_chunks_from_czi. cbn zeta. intros Hplan.
  apply (range_loop_NoDup fst T4 (λ _, True)) in Hplan as [Hnd _]; [done|].
  intros t_ind t pz Hz.
  apply (range_loop_NoDup fst Z4 (λ y, T4 y.1 = t_ind)) in Hz as [Hnd Hin].
  { split; [done|]. intros y Hy. by rewrite (Hin y Hy). }
  intros z_ind z py Hy.
  apply (range_loop_NoDup fst Y4 (λ y, T4 y.1 = t_ind ∧ Z4 y.1 = z_ind)) in Hy
    as [Hnd Hin].
  { split; [done|]. intros y Hy. destruct (Hin y Hy) as [-> ->]. done. }
  intros y_ind y px Hx.
  apply (range_loop_NoDup fst X4
           (λ y, T4 y.1 = t_ind ∧ Z4 y.1 = z_ind ∧ Y4 y.1 = y_ind)) in Hx as [Hnd Hin].
  { split; [done|]. intros k Hk. destruct (Hin k Hk) as (-> & -> & ->). done. }
  intros x_ind x pp Hbody.
  destruct (check_existing_chunks _ _ _); simpl in Hbody; injection Hbody as <-.
  - split; [constructor|]. by intros k Hk%elem_of_nil.
  - split; [apply NoDup_singleton|]. by intros k ->%list_elem_of_singleton.
Qed.

Lemma load_chunks_from_czi_keys_distinct_witness :
  ∃ plan,
    load_chunks_from_czi (scenario_file blank) scenario_tile scenario_overlap ∅
      (mkTZYX 1 1 1 1) 0 = Ok plan
    ∧ NoDup plan.*1.
Proof.
  eexists. split; [vm_compute; reflexivity|].
  refine (load_chunks_from_czi_keys_distinct (scenario_file blank) scenario_tile
            scenario_overlap ∅ (mkTZYX 1 1 1 1) 0 _ eq_refl).
Defined.


